(** * Navigation policy of the desktop client: [main/views/webContentEvents.ts]

    A shallow embedding of the [WebContentsEventManager] class: the
    [will-navigate] and [did-start-navigation] handlers, the window-open
    handler with its single shared popup window, and the registration of the
    per-view custom-login record.

    The collaborators the class imports ([urlUtils], [WindowManager],
    Electron's [BrowserWindow], [composeUserAgent], the [scheme] read from the
    builder configuration) are not part of the file; they are taken as
    parameters of the development. *)

From Stdlib Require Import String Ascii List ZArith Bool Lia.
From stdpp Require Import base gmap strings.

Import ListNotations.
Local Open Scope string_scope.
Local Open Scope Z_scope.

(** ** URLs, as the handlers read them *)

(** The two properties of a WHATWG [URL] object the handlers read are
    [protocol] and [pathname]; [host] is kept so that a concrete classifier
    can tell servers apart. *)
Record URL : Type := mkURL {
  protocol : string;
  host : string;
  pathname : string
}.

(** ** The path patterns of the window-open handler

    The handler tests [parsedURL.pathname] with three regular-expression
    literals, all anchored at the start and open at the end.  They are kept as
    regular expressions and matched by derivatives, by recursion on the
    subject string. *)
Module Regex.

Inductive regex : Type :=
| Void                      (* matches nothing *)
| Eps                       (* matches the empty string *)
| Chr (c : ascii)           (* a literal character *)
| Range (lo hi : ascii)     (* a character class [lo-hi] *)
| Seq (r1 r2 : regex)
| Alt (r1 r2 : regex)
| Star (r : regex).

(** A literal run of characters. *)
Fixpoint Lit (s : string) : regex :=
  match s with
  | EmptyString => Eps
  | String c s' => Seq (Chr c) (Lit s')
  end.

Fixpoint nullable (r : regex) : bool :=
  match r with
  | Void => false
  | Eps => true
  | Chr _ => false
  | Range _ _ => false
  | Seq r1 r2 => nullable r1 && nullable r2
  | Alt r1 r2 => nullable r1 || nullable r2
  | Star _ => true
  end.

Definition in_range (lo hi c : ascii) : bool :=
  (N.leb (N_of_ascii lo) (N_of_ascii c) && N.leb (N_of_ascii c) (N_of_ascii hi))%bool.

(** Smart constructors keep the derivatives small. *)
Definition seq (r1 r2 : regex) : regex :=
  match r1, r2 with
  | Void, _ => Void
  | _, Void => Void
  | Eps, _ => r2
  | _, _ => Seq r1 r2
  end.

Definition alt (r1 r2 : regex) : regex :=
  match r1, r2 with
  | Void, _ => r2
  | _, Void => r1
  | _, _ => Alt r1 r2
  end.

Fixpoint deriv (c : ascii) (r : regex) : regex :=
  match r with
  | Void => Void
  | Eps => Void
  | Chr c' => if Ascii.eqb c c' then Eps else Void
  | Range lo hi => if in_range lo hi c then Eps else Void
  | Seq r1 r2 =>
      if nullable r1
      then alt (seq (deriv c r1) r2) (deriv c r2)
      else seq (deriv c r1) r2
  | Alt r1 r2 => alt (deriv c r1) (deriv c r2)
  | Star r1 => seq (deriv c r1) (Star r1)
  end.

(** [s.match(/^r/)] is truthy exactly when some prefix of [s] is in the
    language of [r]. *)
Fixpoint matches_prefix (r : regex) (s : string) : bool :=
  nullable r ||
  match s with
  | EmptyString => false
  | String c s' => matches_prefix (deriv c r) s'
  end.

(** The language of a regular expression, as a relation. *)
Inductive lang : regex -> string -> Prop :=
| lang_eps : lang Eps ""
| lang_chr c : lang (Chr c) (String c "")
| lang_range lo hi c : in_range lo hi c = true -> lang (Range lo hi) (String c "")
| lang_seq r1 r2 s1 s2 : lang r1 s1 -> lang r2 s2 -> lang (Seq r1 r2) (s1 ++ s2)
| lang_alt_l r1 r2 s : lang r1 s -> lang (Alt r1 r2) s
| lang_alt_r r1 r2 s : lang r2 s -> lang (Alt r1 r2) s
| lang_star_nil r : lang (Star r) ""
| lang_star_cons r s1 s2 : lang r s1 -> lang (Star r) s2 -> lang (Star r) (s1 ++ s2).

End Regex.

Import Regex.

(** [/^(\/api\/v[3-4]\/public)*\/files\//] *)
Definition publicFilesPattern : regex :=
  Seq (Star (Seq (Lit "/api/v") (Seq (Range "3" "4") (Lit "/public"))))
      (Lit "/files/").

(** [/^\/api\/v[3-4]\/image/] *)
Definition imageProxyPattern : regex :=
  Seq (Lit "/api/v") (Seq (Range "3" "4") (Lit "/image")).

(** [/^\/help\//] *)
Definition helpPattern : regex := Lit "/help/".

(** ** Collaborators *)

(** [common/utils/url].  Every classifier is called with the value
    [parseURL] returned; in [will-navigate] and [did-start-navigation] that
    value is passed on under a non-null assertion, so at run time it can
    still be [undefined]: the parsed argument is an [option URL]. Results are
    read for their truthiness only. *)
Record UrlUtils : Type := {
  parseURL : string -> option URL;
  isValidURI : string -> bool;
  (* isTeamUrl(serverURL, inputURL, withApi?) *)
  isTeamUrl : URL -> option URL -> option bool -> bool;
  isAdminUrl : URL -> option URL -> bool;
  isChannelExportUrl : URL -> option URL -> bool;
  (* isCustomLoginURL(inputURL, serverURL) *)
  isCustomLoginURL : option URL -> URL -> bool;
  (* isTrustedURL(inputURL, serverURL) *)
  isTrustedURL : option URL -> URL -> bool;
  isInternalURL : URL -> option URL -> bool;
  (* isCallsPopOutURL(serverURL, inputURL, callID) *)
  isCallsPopOutURL : URL -> option URL -> string -> bool;
  isPluginUrl : URL -> option URL -> bool;
  isManagedResource : URL -> option URL -> bool
}.

(** [main/windows/windowManager].  [callsWidgetWindow] holds what
    [callsWidgetWindow?.getCallID()] evaluates to: [None] when there is no
    widget window. *)
Record WindowManager : Type := {
  getServerURLFromWebContentsId : Z -> option URL;
  callsWidgetWindow : option string
}.

(** What Electron answers when asked: the window that owns a
    [webContents], and the current URL of a window's page. Windows are named
    by their identifier. *)
Record Electron : Type := {
  fromWebContents : Z -> option Z;
  getURL : Z -> string
}.

(** ** Effects on the outside world *)

Inductive LogLevel : Type := Debug | Info | Warn | Error.

Inductive Effect : Type :=
| ELog (lvl : LogLevel) (msg : string)       (* log.<lvl>(msg, ...); only the message is kept *)
| EPreventDefault                            (* event.preventDefault() *)
| EFlushCookiesStore                         (* flushCookiesStore(session.defaultSession) *)
| EHandleDialogEvent (proto url : string)    (* allowProtocolDialog.handleDialogEvent *)
| EOpenExternal (url : string)               (* shell.openExternal *)
| EShowMainWindow (u : URL)                  (* WindowManager.showMainWindow *)
| ENewBrowserWindow (w : Z) (spellcheck : bool)
| ELoadURL (w : Z) (url : string) (userAgent : option string)
| EContextMenuReload (w : Z)                 (* new ContextMenu({}, w).reload() *)
| EShow (w : Z)
| EOn (contents : Z) (event : string)        (* contents.on(event, handler) *)
| ERemoveListener (contents : Z) (event : string).

Definition opensExternal (e : Effect) : bool :=
  match e with EOpenExternal _ => true | _ => false end.
Definition createsWindow (e : Effect) : bool :=
  match e with ENewBrowserWindow _ _ => true | _ => false end.
Definition loadsURL (e : Effect) : bool :=
  match e with ELoadURL _ _ _ => true | _ => false end.
Definition asksProtocolDialog (e : Effect) : bool :=
  match e with EHandleDialogEvent _ _ => true | _ => false end.
Definition preventsDefault (e : Effect) : bool :=
  match e with EPreventDefault => true | _ => false end.
Definition flushesCookies (e : Effect) : bool :=
  match e with EFlushCookiesStore => true | _ => false end.

(** ** State *)

Record CustomLogin : Type := { inProgress : bool }.

(** The closures the class hands to [once]. *)
Inductive Callback : Type :=
| ShowPopup      (* () => { this.popupWindow!.show(); } *)
| ClearPopup.    (* () => { this.popupWindow = undefined; } *)

(** A window built by [new BrowserWindow] in this class, while it is open. *)
Record BrowserWindow : Type := {
  spellcheckPref : bool;
  denyAllOpenHandler : bool;              (* setWindowOpenHandler(this.denyNewWindow) *)
  onceReadyToShow : list Callback;
  onceClosed : list Callback
}.

(** The fields of [WebContentsEventManager], with the windows the class has
    built that are still open and the next fresh window identifier.
    [listeners] keeps, per content id, whether a detach callback is stored. *)
Record World : Type := {
  customLogins : gmap Z CustomLogin;
  listeners : gset Z;
  popupWindow : option Z;
  windows : gmap Z BrowserWindow;
  nextWindow : Z
}.

(** [constructor()] *)
Definition initial : World :=
  {| customLogins := ∅; listeners := ∅; popupWindow := None;
     windows := ∅; nextWindow := 1 |}.

Definition set_customLogins (f : gmap Z CustomLogin -> gmap Z CustomLogin) (w : World) : World :=
  {| customLogins := f (customLogins w); listeners := listeners w;
     popupWindow := popupWindow w; windows := windows w; nextWindow := nextWindow w |}.
Definition set_listeners (f : gset Z -> gset Z) (w : World) : World :=
  {| customLogins := customLogins w; listeners := f (listeners w);
     popupWindow := popupWindow w; windows := windows w; nextWindow := nextWindow w |}.
Definition set_popupWindow (p : option Z) (w : World) : World :=
  {| customLogins := customLogins w; listeners := listeners w;
     popupWindow := p; windows := windows w; nextWindow := nextWindow w |}.
Definition set_windows (f : gmap Z BrowserWindow -> gmap Z BrowserWindow) (w : World) : World :=
  {| customLogins := customLogins w; listeners := listeners w;
     popupWindow := popupWindow w; windows := f (windows w); nextWindow := nextWindow w |}.

(** ** The handler monad: state, a trace of effects, and [TypeError] *)

Inductive Result (A : Type) : Type :=
| Normal (a : A)
| TypeError.
Arguments Normal {A} a.
Arguments TypeError {A}.

Record Run (A : Type) : Type := mkRun {
  outcome : Result A;
  after : World;
  trace : list Effect
}.
Arguments mkRun {A} _ _ _.
Arguments outcome {A} _.
Arguments after {A} _.
Arguments trace {A} _.

Definition M (A : Type) : Type := World -> Run A.

Definition ret {A} (a : A) : M A := fun w => mkRun (Normal a) w [].

Definition bind {A B} (m : M A) (k : A -> M B) : M B := fun w =>
  let r := m w in
  match outcome r with
  | Normal a =>
      let r' := k a (after r) in
      mkRun (outcome r') (after r') (trace r ++ trace r')
  | TypeError => mkRun TypeError (after r) (trace r)
  end.

Definition throw {A} : M A := fun w => mkRun TypeError w [].
Definition emit (e : Effect) : M unit := fun w => mkRun (Normal tt) w [e].
Definition get : M World := fun w => mkRun (Normal w) w [].
Definition modify (f : World -> World) : M unit := fun w => mkRun (Normal tt) (f w) [].
Definition log (lvl : LogLevel) (msg : string) : M unit := emit (ELog lvl msg).

Notation "x <- m ;; k" := (bind m (fun x => k))
  (at level 100, m at next level, right associativity).
Notation "m ;; k" := (bind m (fun _ => k))
  (at level 100, right associativity).

(** ** The class *)

Inductive Action : Type := Deny | Allow.

Section WebContentsEventManager.

Variable urlUtils : UrlUtils.
Variable windowManager : WindowManager.
Variable electron : Electron.
(** [protocols[0].schemes[0]] of the builder configuration; [None] when the
    chain of [&&] yields [undefined]. *)
Variable scheme : option string.
(** The string [composeUserAgent()] returns. *)
Variable composeUserAgent : string.

(** [`${scheme}:`] *)
Definition schemeProtocol : string :=
  match scheme with
  | Some s => s ++ ":"
  | None => "undefined:"
  end.

(** [serverURL && f(serverURL)] *)
Definition withServer (serverURL : option URL) (f : URL -> bool) : bool :=
  match serverURL with
  | Some s => f s
  | None => false
  end.

(** Truthiness of [callID]: a missing widget and an empty id are both falsy. *)
Definition truthyCallID (callID : option string) : option string :=
  match callID with
  | Some s => if String.eqb s "" then None else Some s
  | None => None
  end.

(** [parsedURL.protocol], on a value that can be [undefined]. *)
Definition readProtocol (parsedURL : option URL) : M string :=
  match parsedURL with
  | Some u => ret (protocol u)
  | None => throw
  end.

(** [this.customLogins[contentID]?.inProgress] *)
Definition inProgressOrUndefined (w : World) (contentID : Z) : bool :=
  match customLogins w !! contentID with
  | Some cl => inProgress cl
  | None => false
  end.

(** [this.customLogins[contentID].inProgress] *)
Definition readInProgress (contentID : Z) : M bool := fun w =>
  match customLogins w !! contentID with
  | Some cl => ret (inProgress cl) w
  | None => throw w
  end.

(** [this.customLogins[contentID].inProgress = b] *)
Definition writeInProgress (contentID : Z) (b : bool) : M unit := fun w =>
  match customLogins w !! contentID with
  | Some _ => modify (set_customLogins <[contentID := {| inProgress := b |}]>) w
  | None => throw w
  end.

Definition isTrustedPopupWindow (w : World) (webContents : option Z) : bool :=
  match webContents with
  | None => false
  | Some wc =>
      match popupWindow w with
      | None => false
      | Some p =>
          match fromWebContents electron wc with
          | Some owner => Z.eqb owner p
          | None => false
          end
      end
  end.

(** The listener [generateWillNavigate] returns, applied to an event whose
    [sender.id] is [sender] and to [url]. *)
Definition generateWillNavigate (sender : Z) (url : string) : M unit :=
  log Debug "webContentEvents.will-navigate" ;;
  let contentID := sender in
  let parsedURL := parseURL urlUtils url in
  let serverURL := getServerURLFromWebContentsId windowManager sender in
  w <- get ;;
  if withServer serverURL (fun s =>
       isTeamUrl urlUtils s parsedURL None
       || isAdminUrl urlUtils s parsedURL
       || isTrustedPopupWindow w (Some sender))
  then ret tt
  else if withServer serverURL (fun s => isChannelExportUrl urlUtils s parsedURL)
  then ret tt
  else if withServer serverURL (fun s => isCustomLoginURL urlUtils parsedURL s)
  then ret tt
  else
    proto <- readProtocol parsedURL ;;
    if String.eqb proto "mailto:"
    then ret tt
    else if inProgressOrUndefined w contentID
    then emit EFlushCookiesStore ;; ret tt
    else
      let callID := callsWidgetWindow windowManager in
      if withServer serverURL (fun s =>
           match truthyCallID callID with
           | Some c => isCallsPopOutURL urlUtils s parsedURL c
           | None => false
           end)
      then ret tt
      else
        log Info ("Prevented desktop from navigating to: " ++ url) ;;
        emit EPreventDefault.

(** The listener [generateDidStartNavigation] returns. *)
Definition generateDidStartNavigation (sender : Z) (url : string) : M unit :=
  log Debug "webContentEvents.did-start-navigation" ;;
  let contentID := sender in
  let parsedURL := parseURL urlUtils url in
  let serverURL := getServerURLFromWebContentsId windowManager sender in
  if negb (withServer serverURL (fun s => isTrustedURL urlUtils parsedURL s))
  then ret tt
  else if withServer serverURL (fun s => isCustomLoginURL urlUtils parsedURL s)
  then writeInProgress contentID true
  else
    match serverURL with
    | None => ret tt
    | Some s =>
        ip <- readInProgress contentID ;;
        if ip && isInternalURL urlUtils s parsedURL
        then writeInProgress contentID false
        else ret tt
    end.

Definition denyNewWindow (url : string) : M Action :=
  log Warn ("Prevented popup window to open a new window to " ++ url ++ ".") ;;
  ret Deny.

(** [new BrowserWindow({... webPreferences: {spellcheck}})]: a fresh window
    with no handler attached yet. *)
Definition newBrowserWindow (spellcheck : bool) : M Z := fun w =>
  let id := nextWindow w in
  let bw := {| spellcheckPref := spellcheck; denyAllOpenHandler := false;
               onceReadyToShow := []; onceClosed := [] |} in
  mkRun (Normal id)
        {| customLogins := customLogins w; listeners := listeners w;
           popupWindow := popupWindow w;
           windows := <[id := bw]> (windows w); nextWindow := id + 1 |}
        [ENewBrowserWindow id spellcheck].

Definition setWindowOpenHandlerDeny (bw : BrowserWindow) : BrowserWindow :=
  {| spellcheckPref := spellcheckPref bw; denyAllOpenHandler := true;
     onceReadyToShow := onceReadyToShow bw; onceClosed := onceClosed bw |}.
Definition addOnceReadyToShow (c : Callback) (bw : BrowserWindow) : BrowserWindow :=
  {| spellcheckPref := spellcheckPref bw; denyAllOpenHandler := denyAllOpenHandler bw;
     onceReadyToShow := onceReadyToShow bw ++ [c]; onceClosed := onceClosed bw |}.
Definition addOnceClosed (c : Callback) (bw : BrowserWindow) : BrowserWindow :=
  {| spellcheckPref := spellcheckPref bw; denyAllOpenHandler := denyAllOpenHandler bw;
     onceReadyToShow := onceReadyToShow bw; onceClosed := onceClosed bw ++ [c] |}.

(** The body of [if (!this.popupWindow) { ... }], followed by reading
    [this.popupWindow]. *)
Definition ensurePopupWindow (spellcheck : option bool) : M Z :=
  w <- get ;;
  match popupWindow w with
  | Some p => ret p
  | None =>
      p <- newBrowserWindow (match spellcheck with None => true | Some b => b end) ;;
      modify (set_popupWindow (Some p)) ;;
      modify (set_windows (alter setWindowOpenHandlerDeny p)) ;;
      modify (set_windows (alter (addOnceReadyToShow ShowPopup) p)) ;;
      modify (set_windows (alter (addOnceClosed ClearPopup) p)) ;;
      ret p
  end.

(** The handler [generateNewWindowListener(webContentsId, spellcheck)]
    returns, applied to [details.url]. *)
Definition generateNewWindowListener
    (webContentsId : Z) (spellcheck : option bool) (url : string) : M Action :=
  log Debug "webContentEvents.new-window" ;;
  match parseURL urlUtils url with
  | None =>
      log Warn ("Ignoring non-url " ++ url) ;;
      ret Deny
  | Some parsedURL =>
      if String.eqb (protocol parsedURL) "devtools:" then ret Allow
      else if negb (String.eqb (protocol parsedURL) "http:")
              && negb (String.eqb (protocol parsedURL) "https:")
              && negb (String.eqb (protocol parsedURL) schemeProtocol)
      then emit (EHandleDialogEvent (protocol parsedURL) url) ;; ret Deny
      else if negb (isValidURI urlUtils url)
      then emit (EOpenExternal url) ;; ret Deny
      else
        match getServerURLFromWebContentsId windowManager webContentsId with
        | None => emit (EOpenExternal url) ;; ret Deny
        | Some serverURL =>
            if matches_prefix publicFilesPattern (pathname parsedURL)
            then emit (EOpenExternal url) ;; ret Deny
            else if matches_prefix imageProxyPattern (pathname parsedURL)
            then emit (EOpenExternal url) ;; ret Deny
            else if matches_prefix helpPattern (pathname parsedURL)
            then emit (EOpenExternal url) ;; ret Deny
            else if isTeamUrl urlUtils serverURL (Some parsedURL) (Some true)
            then emit (EShowMainWindow parsedURL) ;; ret Deny
            else if isAdminUrl urlUtils serverURL (Some parsedURL)
            then
              log Info (url ++ " is an admin console page, preventing to open a new window") ;;
              ret Deny
            else
              w <- get ;;
              if match popupWindow w with
                 | Some p => String.eqb (getURL electron p) url
                 | None => false
                 end
              then
                log Info ("Popup window already open at provided url: " ++ url) ;;
                ret Deny
              else if isPluginUrl urlUtils serverURL (Some parsedURL)
                      || isManagedResource urlUtils serverURL (Some parsedURL)
              then
                p <- ensurePopupWindow spellcheck ;;
                (if isManagedResource urlUtils serverURL (Some parsedURL)
                 then emit (ELoadURL p url None)
                 else emit (ELoadURL p url (Some composeUserAgent))) ;;
                emit (EContextMenuReload p) ;;
                ret Deny
              else emit (EOpenExternal url) ;; ret Deny
        end
  end.

(** [removeWebContentsListeners(id)]: runs the stored detach callback, which
    removes the two navigation listeners of the contents.  The trace records
    the two calls the callback makes; that a call on contents that are gone
    can throw, which the callback catches and logs, is not modelled.  The
    state of the class is the same either way. *)
Definition removeWebContentsListeners (id : Z) : M unit :=
  w <- get ;;
  if decide (id ∈ listeners w)
  then
    emit (ERemoveListener id "will-navigate") ;;
    emit (ERemoveListener id "did-start-navigation")
  else ret tt.

(** [addWebContentsEventListeners(contents)], for the contents with
    identifier [id]: what it does to the state of the class, and the two
    navigation listeners it attaches.  Its other calls on the contents
    ([setWindowOpenHandler], the [once] listener for [render-process-gone],
    the caller's optional [addListeners] and [removeListeners] hooks) do not
    touch the state of the class and are left out of the trace. *)
Definition addWebContentsEventListeners (id : Z) : M unit :=
  modify (set_customLogins <[id := {| inProgress := false |}]>) ;;
  removeWebContentsListeners id ;;
  emit (EOn id "will-navigate") ;;
  emit (EOn id "did-start-navigation") ;;
  modify (set_listeners (fun l => {[id]} ∪ l)).

(** ** Signals of a popup window *)

Definition runCallback (c : Callback) : M unit :=
  match c with
  | ShowPopup =>
      w <- get ;;
      match popupWindow w with
      | Some p => emit (EShow p)
      | None => throw
      end
  | ClearPopup => modify (set_popupWindow None)
  end.

Fixpoint runCallbacks (cs : list Callback) : M unit :=
  match cs with
  | [] => ret tt
  | c :: cs' => runCallback c ;; runCallbacks cs'
  end.

Definition clearReadyToShow (bw : BrowserWindow) : BrowserWindow :=
  {| spellcheckPref := spellcheckPref bw; denyAllOpenHandler := denyAllOpenHandler bw;
     onceReadyToShow := []; onceClosed := onceClosed bw |}.

(** Window [p] signals [ready-to-show]: its [once] listeners run and are
    dropped. *)
Definition emitReadyToShow (p : Z) : M unit :=
  w <- get ;;
  match windows w !! p with
  | None => ret tt
  | Some bw =>
      modify (set_windows (alter clearReadyToShow p)) ;;
      runCallbacks (onceReadyToShow bw)
  end.

(** Window [p] signals [closed]: the window is gone and its [once]
    listeners run. *)
Definition emitClosed (p : Z) : M unit :=
  w <- get ;;
  match windows w !! p with
  | None => ret tt
  | Some bw =>
      modify (set_windows (delete p)) ;;
      runCallbacks (onceClosed bw)
  end.

End WebContentsEventManager.

(** ** The rules of the three handlers, one by one *)

Section Rules.

Variable urlUtils : UrlUtils.
Variable windowManager : WindowManager.
Variable electron : Electron.

(** *** [will-navigate] *)

(** Rule 1: team space, admin console, or the trusted shared popup. *)
Definition teamAdminOrPopupRule (w : World) (sender : Z) (url : string) : bool :=
  withServer (getServerURLFromWebContentsId windowManager sender) (fun s =>
    isTeamUrl urlUtils s (parseURL urlUtils url) None
    || isAdminUrl urlUtils s (parseURL urlUtils url)
    || isTrustedPopupWindow electron w (Some sender)).

(** Rule 2: channel export. *)
Definition channelExportRule (sender : Z) (url : string) : bool :=
  withServer (getServerURLFromWebContentsId windowManager sender) (fun s =>
    isChannelExportUrl urlUtils s (parseURL urlUtils url)).

(** Rule 3: custom login. *)
Definition customLoginRule (sender : Z) (url : string) : bool :=
  withServer (getServerURLFromWebContentsId windowManager sender) (fun s =>
    isCustomLoginURL urlUtils (parseURL urlUtils url) s).

(** Rule 4: a [mailto:] destination. A destination that does not parse has
    no protocol, so it is no [mailto:] destination. *)
Definition mailtoRule (url : string) : bool :=
  match parseURL urlUtils url with
  | Some u => String.eqb (protocol u) "mailto:"
  | None => false
  end.

(** Rule 5: a custom login is in progress for the view. *)
Definition loginInProgressRule (w : World) (sender : Z) : bool :=
  inProgressOrUndefined w sender.

(** Rule 6: the pop-out of the active call. *)
Definition callsPopOutRule (sender : Z) (url : string) : bool :=
  withServer (getServerURLFromWebContentsId windowManager sender) (fun s =>
    match truthyCallID (callsWidgetWindow windowManager) with
    | Some c => isCallsPopOutURL urlUtils s (parseURL urlUtils url) c
    | None => false
    end).

Definition noEarlierRule (w : World) (sender : Z) (url : string) : bool :=
  negb (teamAdminOrPopupRule w sender url)
  && negb (channelExportRule sender url)
  && negb (customLoginRule sender url)
  && negb (mailtoRule url).

Definition noAllowRule (w : World) (sender : Z) (url : string) : bool :=
  noEarlierRule w sender url
  && negb (loginInProgressRule w sender)
  && negb (callsPopOutRule sender url).

(** *** [did-start-navigation] *)

(** [trustedFor sender url]: the view has a server origin and the
    destination is trusted for it. *)
Definition trustedFor (sender : Z) (url : string) : bool :=
  withServer (getServerURLFromWebContentsId windowManager sender) (fun s =>
    isTrustedURL urlUtils (parseURL urlUtils url) s).

(** *** Window-open requests *)

Variable scheme : option string.

(** The popup exists and its page is at [url]. *)
Definition popupShows (w : World) (url : string) : bool :=
  match popupWindow w with
  | Some p => String.eqb (getURL electron p) url
  | None => false
  end.

(** The protocol is one the handler deals with itself. *)
Definition webProtocol (u : URL) : bool :=
  String.eqb (protocol u) "http:" || String.eqb (protocol u) "https:"
  || String.eqb (protocol u) (schemeProtocol scheme).

(** One of the three path patterns that go to the external browser. *)
Definition externalPath (u : URL) : bool :=
  matches_prefix publicFilesPattern (pathname u)
  || matches_prefix imageProxyPattern (pathname u)
  || matches_prefix helpPattern (pathname u).

(** The request gets as far as the rules that look at the server: it
    parses to [u], is no devtools URL, has a web protocol, is valid, comes
    from a view with server origin [s], and has no external path. *)
Definition reachesServerRules (webContentsId : Z) (url : string) (u s : URL) : Prop :=
  parseURL urlUtils url = Some u
  /\ String.eqb (protocol u) "devtools:" = false
  /\ webProtocol u = true
  /\ isValidURI urlUtils url = true
  /\ getServerURLFromWebContentsId windowManager webContentsId = Some s
  /\ externalPath u = false.

End Rules.

(** The custom-login flag of a view, when the view has a record. *)
Definition flag (w : World) (contentID : Z) : option bool :=
  inProgress <$> customLogins w !! contentID.

(** ** The shared popup window *)

(** The window the handler builds: deny-all open handler, one
    [ready-to-show] listener and one [closed] listener. *)
Definition popupBrowserWindow (spellcheck : option bool) : BrowserWindow :=
  {| spellcheckPref := match spellcheck with None => true | Some b => b end;
     denyAllOpenHandler := true;
     onceReadyToShow := [ShowPopup];
     onceClosed := [ClearPopup] |}.

(** The state after a popup has been built in [w]. *)
Definition withNewPopup (spellcheck : option bool) (w : World) : World :=
  {| customLogins := customLogins w; listeners := listeners w;
     popupWindow := Some (nextWindow w);
     windows := <[nextWindow w := popupBrowserWindow spellcheck]> (windows w);
     nextWindow := nextWindow w + 1 |}.

(** The effects of the popup branch: the window is built when there is
    none, then loaded. *)
Definition popupTrace (w : World) (spellcheck : option bool) (url : string)
    (userAgent : option string) : list Effect :=
  match popupWindow w with
  | Some p => [ELoadURL p url userAgent; EContextMenuReload p]
  | None =>
      [ENewBrowserWindow (nextWindow w) (spellcheckPref (popupBrowserWindow spellcheck));
       ELoadURL (nextWindow w) url userAgent;
       EContextMenuReload (nextWindow w)]
  end.

Definition popupWorld (w : World) (spellcheck : option bool) : World :=
  match popupWindow w with
  | Some _ => w
  | None => withNewPopup spellcheck w
  end.

(** ** The class as a transition system *)

(** What the surroundings answer during one event. *)
Record Host : Type := {
  hostUrlUtils : UrlUtils;
  hostWindowManager : WindowManager;
  hostElectron : Electron;
  hostScheme : option string;
  hostUserAgent : string
}.

(** The events the class reacts to. *)
Inductive Event : Type :=
| WillNavigate (sender : Z) (url : string)
| DidStartNavigation (sender : Z) (url : string)
| WindowOpen (webContentsId : Z) (spellcheck : option bool) (url : string)
| PopupWindowOpen (url : string)
| Register (contents : Z)
| Unregister (contents : Z)
| ReadyToShow (window : Z)
| Closed (window : Z).

Definition handle (h : Host) (e : Event) : M unit :=
  match e with
  | WillNavigate sender url =>
      generateWillNavigate (hostUrlUtils h) (hostWindowManager h) (hostElectron h) sender url
  | DidStartNavigation sender url =>
      generateDidStartNavigation (hostUrlUtils h) (hostWindowManager h) sender url
  | WindowOpen id spellcheck url =>
      _ <- generateNewWindowListener (hostUrlUtils h) (hostWindowManager h) (hostElectron h)
             (hostScheme h) (hostUserAgent h) id spellcheck url ;;
      ret tt
  | PopupWindowOpen url => _ <- denyNewWindow url ;; ret tt
  | Register id => addWebContentsEventListeners id
  | Unregister id => removeWebContentsListeners id
  | ReadyToShow p => emitReadyToShow p
  | Closed p => emitClosed p
  end.

Definition step (w : World) (he : Host * Event) : World :=
  after (handle (fst he) (snd he) w).

(** The state after a sequence of events, from [w]. *)
Definition runEvents (events : list (Host * Event)) (w : World) : World :=
  fold_left step events w.

(** The popup reference and the open windows agree: the reference names the
    only open window, which carries the listener that clears the reference;
    with no reference no window is open. *)
Definition popupInvariant (w : World) : Prop :=
  match popupWindow w with
  | Some p =>
      exists bw, windows w = {[p := bw]}
        /\ onceClosed bw = [ClearPopup]
        /\ (onceReadyToShow bw = [ShowPopup] \/ onceReadyToShow bw = [])
  | None => windows w = ∅
  end.

(** Every registered view has its custom-login record. *)
Definition recordInvariant (w : World) : Prop :=
  forall id, id ∈ listeners w -> is_Some (customLogins w !! id).

(** ** A concrete deployment, for examples

    A server at [https://team.example.com] shown in the view with content
    id 1, and a small classifier in the spirit of [common/utils/url]: it is
    an instance of the collaborator interface, used to run the handlers on
    concrete requests. *)
Module Sample.

Definition rest_from (n : nat) (s : string) : string :=
  substring n (String.length s - n) s.

(** [scheme:rest] or [scheme://host/path]; a string with no colon does not
    parse. *)
Definition parse (s : string) : option URL :=
  match index 0 ":" s with
  | None => None
  | Some i =>
      if Nat.eqb i 0 then None
      else
        let proto := substring 0 (i + 1) s in
        let rest := rest_from (i + 1) s in
        if String.prefix "//" rest
        then
          let r := rest_from 2 rest in
          match index 0 "/" r with
          | None => Some (mkURL proto r "/")
          | Some j => Some (mkURL proto (substring 0 j r) (rest_from j r))
          end
        else Some (mkURL proto "" rest)
  end.

Definition has_space (s : string) : bool :=
  match index 0 " " s with Some _ => true | None => false end.

Definition sameOrigin (s : URL) (u : option URL) : bool :=
  match u with
  | Some u => String.eqb (protocol s) (protocol u) && String.eqb (host s) (host u)
  | None => false
  end.

Definition pathStarts (p : string) (u : option URL) : bool :=
  match u with
  | Some u => String.prefix p (pathname u)
  | None => false
  end.

Definition utils : UrlUtils := {|
  parseURL := parse;
  isValidURI := fun s => negb (has_space s);
  isTeamUrl := fun s u withApi =>
    sameOrigin s u
    && negb (pathStarts "/plugins" u || pathStarts "/admin_console" u
             || pathStarts "/oauth" u || pathStarts "/login" u
             || pathStarts "/trusted" u
             || (match withApi with Some true => pathStarts "/api" u | _ => false end));
  isAdminUrl := fun s u => sameOrigin s u && pathStarts "/admin_console" u;
  isChannelExportUrl := fun s u =>
    sameOrigin s u
    && pathStarts "/plugins/com.mattermost.plugin-channel-export/api/v1/export" u;
  isCustomLoginURL := fun u s =>
    sameOrigin s u && (pathStarts "/oauth/" u || pathStarts "/login/sso/saml" u);
  isTrustedURL := fun u s => sameOrigin s u;
  isInternalURL := fun s u => sameOrigin s u;
  isCallsPopOutURL := fun s u callID =>
    sameOrigin s u && pathStarts ("/plugins/com.mattermost.calls/expanded/" ++ callID) u;
  isPluginUrl := fun s u =>
    match u with
    | Some u' => String.eqb (host u') "plugins.example.com"
                 || (sameOrigin s u && pathStarts "/plugins/" u)
    | None => false
    end;
  isManagedResource := fun s u => sameOrigin s u && pathStarts "/trusted/" u
|}.

Definition server : URL := mkURL "https:" "team.example.com" "/".

(** View 1 shows the server; no other view has one. No call is active. *)
Definition manager : WindowManager := {|
  getServerURLFromWebContentsId := fun id => if Z.eqb id 1 then Some server else None;
  callsWidgetWindow := None
|}.

(** No view lives in a window of ours; every window shows [current]. *)
Definition showing (current : string) : Electron := {|
  fromWebContents := fun _ => None;
  getURL := fun _ => current
|}.

Definition scheme : option string := Some "mattermost".
Definition userAgent : string := "Mozilla/5.0 Chrome/100.0 Mattermost/5.0".

(** View 1 registered, nothing else. *)
Definition registered : World :=
  after (addWebContentsEventListeners 1 initial).

(** View 1 registered and in the middle of a custom login. *)
Definition loggingIn : World :=
  after (generateDidStartNavigation utils manager 1
           "https://team.example.com/oauth/gitlab/login" registered).

(** The same views once the window manager resolves no server for them. *)
Definition detached : WindowManager := {|
  getServerURLFromWebContentsId := fun _ => None;
  callsWidgetWindow := None
|}.

Definition pluginURL : string := "https://plugins.example.com/oauth/start".

(** View 1 has asked for [pluginURL]: the popup is open. *)
Definition withPopup : World :=
  after (generateNewWindowListener utils manager (showing "") scheme userAgent
           1 None pluginURL registered).

Definition host (current : string) : Host := {|
  hostUrlUtils := utils;
  hostWindowManager := manager;
  hostElectron := showing current;
  hostScheme := scheme;
  hostUserAgent := userAgent
|}.

End Sample.

(** ** Further notions: actions, windows, path shapes *)

Definition showsMainWindow (e : Effect) : bool :=
  match e with EShowMainWindow _ => true | _ => false end.

(** What a window-open request can set off outside the class: the protocol
    dialog, the external browser, the main window, a load into the popup. *)
Definition isAction (e : Effect) : bool :=
  asksProtocolDialog e || opensExternal e || showsMainWindow e || loadsURL e.

(** Every open window of the class denies window-open requests. *)
Definition allDenyNewWindows (w : World) : Prop :=
  forall p bw, windows w !! p = Some bw -> denyAllOpenHandler bw = true.

(** [/api/v3/public] or [/api/v4/public], and runs of them. *)
Definition publicSegment (v4 : bool) : string :=
  if v4 then "/api/v4/public" else "/api/v3/public".

Fixpoint publicSegments (vs : list bool) : string :=
  match vs with
  | [] => ""
  | v :: vs' => publicSegment v ++ publicSegments vs'
  end.

(** ** More of the sample deployment *)
Module Scenario.

(** View 1 shows the server and a call with id [call42] is active. *)
Definition inCall : WindowManager := {|
  getServerURLFromWebContentsId := fun id => if Z.eqb id 1 then Some Sample.server else None;
  callsWidgetWindow := Some "call42"
|}.

(** The contents with id 7 live in window 1, the popup of [Sample.withPopup]. *)
Definition popupContents : Electron := {|
  fromWebContents := fun id => if Z.eqb id 7 then Some 1 else None;
  getURL := fun _ => Sample.pluginURL
|}.

(** A window manager that resolves the server for the popup's contents too. *)
Definition resolvesPopup : WindowManager := {|
  getServerURLFromWebContentsId := fun id =>
    if Z.eqb id 1 || Z.eqb id 7 then Some Sample.server else None;
  callsWidgetWindow := None
|}.

Definition loginURL : string := "https://team.example.com/oauth/gitlab/login".
Definition channelURL : string := "https://team.example.com/core/channels/town-square".

End Scenario.

(** * Properties *)

(** ** The path patterns and the sample classifier, on examples *)

Example publicFiles_plain : matches_prefix publicFilesPattern "/files/abc/public" = true.
Proof. reflexivity. Qed.
Example publicFiles_api : matches_prefix publicFilesPattern "/api/v4/public/files/abc" = true.
Proof. reflexivity. Qed.
Example publicFiles_twice :
  matches_prefix publicFilesPattern "/api/v3/public/api/v4/public/files/" = true.
Proof. reflexivity. Qed.
Example publicFiles_v5 : matches_prefix publicFilesPattern "/api/v5/public/files/abc" = false.
Proof. reflexivity. Qed.
Example publicFiles_inner : matches_prefix publicFilesPattern "/x/files/abc" = false.
Proof. reflexivity. Qed.
Example imageProxy_yes : matches_prefix imageProxyPattern "/api/v4/image?url=x" = true.
Proof. reflexivity. Qed.
Example imageProxy_no : matches_prefix imageProxyPattern "/api/v2/image" = false.
Proof. reflexivity. Qed.
Example help_yes : matches_prefix helpPattern "/help/about" = true.
Proof. reflexivity. Qed.
Example help_no : matches_prefix helpPattern "/helpdesk" = false.
Proof. reflexivity. Qed.

(** ** The matcher against the language of a pattern *)

Module RegexFacts.

Lemma append_cons c (s t : string) : String c s ++ t = String c (s ++ t).
Proof. reflexivity. Qed.

Lemma append_eq_nil (s1 s2 : string) : s1 ++ s2 = "" -> s1 = "" /\ s2 = "".
Proof.
  destruct s1 as [|c s1]; [auto|]. rewrite append_cons. discriminate.
Qed.

Lemma append_eq_cons (s1 s2 : string) c s :
  s1 ++ s2 = String c s ->
  (s1 = "" /\ s2 = String c s) \/ (exists s1', s1 = String c s1' /\ s = s1' ++ s2).
Proof.
  destruct s1 as [|c1 s1]; [left; auto|].
  rewrite append_cons. intros H. injection H as -> <-. right. eauto.
Qed.

Lemma lang_void_inv s : ~ lang Void s.
Proof. intros H. inversion H. Qed.

Lemma lang_eps_inv s : lang Eps s -> s = "".
Proof. intros H. inversion H. reflexivity. Qed.

Lemma lang_seq_inv r1 r2 s :
  lang (Seq r1 r2) s -> exists s1 s2, s = s1 ++ s2 /\ lang r1 s1 /\ lang r2 s2.
Proof. intros H. inversion H; subst. eauto. Qed.

Lemma lang_alt_inv r1 r2 s : lang (Alt r1 r2) s -> lang r1 s \/ lang r2 s.
Proof. intros H. inversion H; subst; auto. Qed.

Lemma nullable_lang r : nullable r = true <-> lang r "".
Proof.
  induction r as [| |c|lo hi|r1 IH1 r2 IH2|r1 IH1 r2 IH2|r IH]; cbn.
  - split; [discriminate|]. intros H. destruct (lang_void_inv _ H).
  - split; [constructor|reflexivity].
  - split; [discriminate|]. intros H. inversion H.
  - split; [discriminate|]. intros H. inversion H.
  - rewrite andb_true_iff, IH1, IH2. split.
    + intros [H1 H2]. exact (lang_seq _ _ "" "" H1 H2).
    + intros H. apply lang_seq_inv in H as (s1 & s2 & E & H1 & H2).
      symmetry in E. apply append_eq_nil in E as [-> ->]. auto.
  - rewrite orb_true_iff, IH1, IH2. split.
    + intros [H|H]; [apply lang_alt_l|apply lang_alt_r]; assumption.
    + apply lang_alt_inv.
  - split; [constructor|reflexivity].
Qed.

Lemma lang_seq_smart r1 r2 s : lang (seq r1 r2) s <-> lang (Seq r1 r2) s.
Proof.
  assert (Hl : forall r, lang Void s <-> lang (Seq Void r) s).
  { intros r. split; intros H; [destruct (lang_void_inv _ H)|].
    apply lang_seq_inv in H as (? & ? & _ & H & _). destruct (lang_void_inv _ H). }
  assert (Hr : forall r, lang Void s <-> lang (Seq r Void) s).
  { intros r. split; intros H; [destruct (lang_void_inv _ H)|].
    apply lang_seq_inv in H as (? & ? & _ & _ & H). destruct (lang_void_inv _ H). }
  assert (He : forall r, lang r s <-> lang (Seq Eps r) s).
  { intros r. split; intros H; [exact (lang_seq Eps r "" s lang_eps H)|].
    apply lang_seq_inv in H as (s1 & s2 & -> & H1 & H2).
    apply lang_eps_inv in H1 as ->. exact H2. }
  destruct r1; destruct r2; cbn [seq]; auto; reflexivity.
Qed.

Lemma lang_alt_smart r1 r2 s : lang (alt r1 r2) s <-> lang (Alt r1 r2) s.
Proof.
  assert (Hl : forall r, lang r s <-> lang (Alt Void r) s).
  { intros r. split; intros H; [apply lang_alt_r; exact H|].
    apply lang_alt_inv in H as [H|H]; [destruct (lang_void_inv _ H)|exact H]. }
  assert (Hr : forall r, lang r s <-> lang (Alt r Void) s).
  { intros r. split; intros H; [apply lang_alt_l; exact H|].
    apply lang_alt_inv in H as [H|H]; [exact H|destruct (lang_void_inv _ H)]. }
  destruct r1; destruct r2; cbn [alt]; auto; reflexivity.
Qed.

Lemma lang_star_cons_inv r c s :
  lang (Star r) (String c s) ->
  exists s1 s2, s = s1 ++ s2 /\ lang r (String c s1) /\ lang (Star r) s2.
Proof.
  intros H. remember (Star r) as r' eqn:Er. remember (String c s) as t eqn:Et.
  revert s Et. induction H; intros s' Et; try discriminate.
  injection Er as ->.
  apply append_eq_cons in Et as [[-> ->]|(s1' & -> & ->)].
  - apply IHlang2; reflexivity.
  - eauto.
Qed.

Lemma deriv_lang c r : forall s, lang (deriv c r) s <-> lang r (String c s).
Proof.
  induction r as [| |c'|lo hi|r1 IH1 r2 IH2|r1 IH1 r2 IH2|r IH]; intros s; cbn [deriv].
  - split; intros H; inversion H.
  - split; intros H; inversion H.
  - destruct (Ascii.eqb_spec c c') as [->|Hne].
    + split; intros H.
      * apply lang_eps_inv in H as ->. constructor.
      * inversion H; subst. constructor.
    + split; intros H; [inversion H|inversion H; congruence].
  - destruct (in_range lo hi c) eqn:Hin.
    + split; intros H.
      * apply lang_eps_inv in H as ->. constructor. exact Hin.
      * inversion H; subst. constructor.
    + split; intros H; [inversion H|inversion H; congruence].
  - assert (Hfirst : lang (seq (deriv c r1) r2) s <->
              exists s1 s2, s = s1 ++ s2 /\ lang r1 (String c s1) /\ lang r2 s2).
    { rewrite lang_seq_smart. split.
      - intros H. apply lang_seq_inv in H as (s1 & s2 & -> & H1 & H2).
        apply IH1 in H1. exists s1, s2. auto.
      - intros (s1 & s2 & -> & H1 & H2). apply lang_seq; [apply IH1|]; assumption. }
    assert (Hsplit : lang (Seq r1 r2) (String c s) <->
              (exists s1 s2, s = s1 ++ s2 /\ lang r1 (String c s1) /\ lang r2 s2)
              \/ (lang r1 "" /\ lang r2 (String c s))).
    { split.
      - intros H. apply lang_seq_inv in H as (s1 & s2 & E & H1 & H2).
        symmetry in E. apply append_eq_cons in E as [[-> ->]|(s1' & -> & ->)].
        + right. auto.
        + left. exists s1', s2. auto.
      - intros [(s1 & s2 & -> & H1 & H2)|[H1 H2]].
        + exact (lang_seq r1 r2 (String c s1) s2 H1 H2).
        + exact (lang_seq r1 r2 "" (String c s) H1 H2). }
    rewrite Hsplit. destruct (nullable r1) eqn:Hn.
    + rewrite lang_alt_smart. split.
      * intros H. apply lang_alt_inv in H as [H|H].
        -- left. apply Hfirst. exact H.
        -- right. split; [apply nullable_lang; exact Hn|apply IH2; exact H].
      * intros [H|[_ H]].
        -- apply lang_alt_l. apply Hfirst. exact H.
        -- apply lang_alt_r. apply IH2. exact H.
    + rewrite Hfirst. split; [auto|]. intros [H|[H _]]; [exact H|].
      apply nullable_lang in H. congruence.
  - rewrite lang_alt_smart. split.
    + intros H. apply lang_alt_inv in H as [H|H];
        [apply lang_alt_l, IH1|apply lang_alt_r, IH2]; exact H.
    + intros H. apply lang_alt_inv in H as [H|H];
        [apply lang_alt_l, IH1|apply lang_alt_r, IH2]; exact H.
  - rewrite lang_seq_smart. split.
    + intros H. apply lang_seq_inv in H as (s1 & s2 & -> & H1 & H2).
      apply IH in H1. exact (lang_star_cons r (String c s1) s2 H1 H2).
    + intros H. apply lang_star_cons_inv in H as (s1 & s2 & -> & H1 & H2).
      apply lang_seq; [apply IH|]; assumption.
Qed.

(** The matcher decides whether a prefix of the subject is in the language. *)
Theorem matches_prefix_spec r s :
  matches_prefix r s = true <-> exists p rest, s = p ++ rest /\ lang r p.
Proof.
  revert r. induction s as [|c s IH]; intros r; cbn [matches_prefix].
  - rewrite orb_false_r, nullable_lang. split.
    + intros H. exists "", "". auto.
    + intros (p & rest & E & H). symmetry in E. apply append_eq_nil in E as [-> _].
      exact H.
  - rewrite orb_true_iff, nullable_lang, IH. split.
    + intros [H|(p & rest & -> & H)].
      * exists "", (String c s). auto.
      * exists (String c p), rest. split; [reflexivity|]. apply deriv_lang. exact H.
    + intros (p & rest & E & H). symmetry in E.
      apply append_eq_cons in E as [[-> _]|(p' & -> & ->)]; [left; exact H|].
      right. exists p', rest. split; [reflexivity|]. apply deriv_lang. exact H.
Qed.

Lemma matches_prefix_void s : matches_prefix Void s = false.
Proof. induction s as [|c s IH]; cbn; auto. Qed.

(** A literal pattern is a prefix test. *)
Lemma matches_prefix_lit p : forall s, matches_prefix (Lit p) s = String.prefix p s.
Proof.
  induction p as [|c p IH]; intros s.
  - destruct s; reflexivity.
  - destruct s as [|c' s]; [reflexivity|].
    cbn [Lit matches_prefix nullable deriv andb orb String.prefix].
    destruct (Ascii.ascii_dec c c') as [->|Hne].
    + rewrite Ascii.eqb_refl.
      replace (seq Eps (Lit p)) with (Lit p) by (destruct (Lit p); reflexivity).
      apply IH.
    + destruct (Ascii.eqb_spec c' c) as [->|_]; [congruence|].
      cbn [seq]. apply matches_prefix_void.
Qed.

End RegexFacts.

(** [helpPattern] is the test [pathname.startsWith("/help/")]. *)
Lemma helpPattern_prefix s : matches_prefix helpPattern s = String.prefix "/help/" s.
Proof. apply RegexFacts.matches_prefix_lit. Qed.

Example parse_admin :
  Sample.parse "https://team.example.com/admin_console/x"
  = Some (mkURL "https:" "team.example.com" "/admin_console/x").
Proof. reflexivity. Qed.
Example parse_mailto :
  Sample.parse "mailto:someone@example.com" = Some (mkURL "mailto:" "" "someone@example.com").
Proof. reflexivity. Qed.
Example parse_nonurl : Sample.parse "not a url" = None.
Proof. reflexivity. Qed.
Example sample_registered :
  customLogins Sample.registered !! 1 = Some {| inProgress := false |}.
Proof. reflexivity. Qed.
Example sample_loggingIn :
  customLogins Sample.loggingIn !! 1 = Some {| inProgress := true |}.
Proof. reflexivity. Qed.

(** ** Proof tools *)

Ltac unfold_monad :=
  cbv beta iota zeta delta [bind ret throw emit log get modify outcome after trace];
  cbn [app].

Ltac case_cond :=
  match goal with
  | |- context [if ?b then _ else _] => destruct b eqn:?
  | |- context [match ?o with Some _ => _ | None => _ end] => destruct o eqn:?
  end.

Section WillNavigate.

Variable urlUtils : UrlUtils.
Variable windowManager : WindowManager.
Variable electron : Electron.

Abbreviation willNavigate := (generateWillNavigate urlUtils windowManager electron).

(** The handler never changes the state of the class. *)
Lemma willNavigate_state sender url w :
  after (willNavigate sender url w) = w.
Proof.
  unfold generateWillNavigate, readProtocol. unfold_monad.
  repeat (case_cond; unfold_monad; cbn); reflexivity.
Qed.

(** When rule 1 matches the handler returns at once. *)
Lemma willNavigate_rule1 sender url w :
  teamAdminOrPopupRule urlUtils windowManager electron w sender url = true ->
  willNavigate sender url w
  = mkRun (Normal tt) w [ELog Debug "webContentEvents.will-navigate"].
Proof.
  intros H. unfold teamAdminOrPopupRule in H.
  unfold generateWillNavigate. unfold_monad. rewrite H. reflexivity.
Qed.

(** With a destination that parses, the handler returns, and it cancels the
    navigation exactly when no allow rule matches. *)
Lemma willNavigate_parsed sender url w u :
  parseURL urlUtils url = Some u ->
  willNavigate sender url w
  = mkRun (Normal tt) w
      (ELog Debug "webContentEvents.will-navigate" ::
       if noAllowRule urlUtils windowManager electron w sender url
       then [ELog Info ("Prevented desktop from navigating to: " ++ url); EPreventDefault]
       else if noEarlierRule urlUtils windowManager electron w sender url
               && loginInProgressRule w sender
       then [EFlushCookiesStore]
       else []).
Proof.
  intros Hp.
  unfold noAllowRule, noEarlierRule, teamAdminOrPopupRule, channelExportRule,
    customLoginRule, mailtoRule, loginInProgressRule, callsPopOutRule.
  unfold generateWillNavigate, readProtocol. unfold_monad. rewrite Hp.
  destruct (withServer _ (fun s => _ || _ || _)); [reflexivity|].
  destruct (withServer _ (fun s => isChannelExportUrl _ _ _)); [reflexivity|].
  destruct (withServer _ (fun s => isCustomLoginURL _ _ _)); [reflexivity|].
  unfold_monad. cbn.
  destruct (String.eqb (protocol u) "mailto:"); [reflexivity|].
  destruct (inProgressOrUndefined w sender); [reflexivity|].
  destruct (withServer _ _); reflexivity.
Qed.

(** A destination that does not parse and matches none of rules 1 to 3
    makes the handler fail on [parsedURL.protocol]. *)
Lemma willNavigate_unparsed sender url w :
  parseURL urlUtils url = None ->
  teamAdminOrPopupRule urlUtils windowManager electron w sender url = false ->
  channelExportRule urlUtils windowManager sender url = false ->
  customLoginRule urlUtils windowManager sender url = false ->
  willNavigate sender url w
  = mkRun TypeError w [ELog Debug "webContentEvents.will-navigate"].
Proof.
  unfold teamAdminOrPopupRule, channelExportRule, customLoginRule.
  intros Hp H1 H2 H3.
  unfold generateWillNavigate, readProtocol. unfold_monad.
  rewrite H1, H2, H3, Hp. reflexivity.
Qed.

End WillNavigate.

Section DidStartNavigation.

Variable urlUtils : UrlUtils.
Variable windowManager : WindowManager.

Abbreviation didStartNavigation := (generateDidStartNavigation urlUtils windowManager).

(** The tracker ignores the event. *)
Lemma didStartNavigation_ignored sender url w :
  trustedFor urlUtils windowManager sender url = false ->
  didStartNavigation sender url w
  = mkRun (Normal tt) w [ELog Debug "webContentEvents.did-start-navigation"].
Proof.
  unfold trustedFor. intros H.
  unfold generateDidStartNavigation. unfold_monad. rewrite H. reflexivity.
Qed.

(** The run of the tracker on a view that has a record. *)
Lemma didStartNavigation_with_record sender url w cl s :
  customLogins w !! sender = Some cl ->
  getServerURLFromWebContentsId windowManager sender = Some s ->
  isTrustedURL urlUtils (parseURL urlUtils url) s = true ->
  didStartNavigation sender url w
  = mkRun (Normal tt)
      (if isCustomLoginURL urlUtils (parseURL urlUtils url) s
       then set_customLogins <[sender := {| inProgress := true |}]> w
       else if inProgress cl && isInternalURL urlUtils s (parseURL urlUtils url)
       then set_customLogins <[sender := {| inProgress := false |}]> w
       else w)
      [ELog Debug "webContentEvents.did-start-navigation"].
Proof.
  intros Hcl Hs Ht.
  unfold generateDidStartNavigation, writeInProgress, readInProgress. unfold_monad.
  rewrite Hs. cbn [withServer]. rewrite Ht. cbn [negb].
  destruct (isCustomLoginURL _ _ _).
  - rewrite Hcl. reflexivity.
  - rewrite Hcl. unfold_monad.
    destruct (inProgress cl && isInternalURL _ _ _).
    + rewrite Hcl. reflexivity.
    + reflexivity.
Qed.

(** The run of the tracker on a view that has no record, for a trusted
    destination: both branches read the record and fail. *)
Lemma didStartNavigation_without_record sender url w s :
  customLogins w !! sender = None ->
  getServerURLFromWebContentsId windowManager sender = Some s ->
  isTrustedURL urlUtils (parseURL urlUtils url) s = true ->
  didStartNavigation sender url w
  = mkRun TypeError w [ELog Debug "webContentEvents.did-start-navigation"].
Proof.
  intros Hcl Hs Ht.
  unfold generateDidStartNavigation, writeInProgress, readInProgress. unfold_monad.
  rewrite Hs. cbn [withServer]. rewrite Ht. cbn [negb].
  destruct (isCustomLoginURL _ _ _); rewrite Hcl; reflexivity.
Qed.

(** The tracker touches nothing but the record of its own view, and never
    removes a record. *)
Lemma didStartNavigation_frame sender url w :
  let w' := after (didStartNavigation sender url w) in
  listeners w' = listeners w /\ popupWindow w' = popupWindow w
  /\ windows w' = windows w /\ nextWindow w' = nextWindow w
  /\ (forall id, id <> sender -> customLogins w' !! id = customLogins w !! id)
  /\ (forall id, is_Some (customLogins w !! id) -> is_Some (customLogins w' !! id)).
Proof.
  cbv zeta.
  destruct (trustedFor urlUtils windowManager sender url) eqn:Ht.
  2:{ rewrite didStartNavigation_ignored by assumption. cbn. repeat split; auto. }
  unfold trustedFor in Ht.
  destruct (getServerURLFromWebContentsId windowManager sender) as [s|] eqn:Hs;
    [|discriminate].
  cbn [withServer] in Ht.
  destruct (customLogins w !! sender) as [cl|] eqn:Hcl.
  - rewrite (didStartNavigation_with_record _ _ _ cl s) by assumption.
    cbn [after].
    repeat case_cond; cbn; repeat split; auto; intros id Hid.
    all: try (rewrite lookup_insert_ne by congruence; reflexivity).
    all: destruct (decide (sender = id)) as [->|Hne];
      [rewrite lookup_insert_eq; eauto | rewrite lookup_insert_ne by assumption; exact Hid].
  - rewrite (didStartNavigation_without_record _ _ _ s) by assumption.
    cbn. repeat split; auto.
Qed.

End DidStartNavigation.

(** The run of a registration. *)
Lemma addWebContentsEventListeners_run id w :
  addWebContentsEventListeners id w
  = mkRun (Normal tt)
      (set_listeners (fun l => {[id]} ∪ l)
         (set_customLogins <[id := {| inProgress := false |}]> w))
      ((if decide (id ∈ listeners w)
        then [ERemoveListener id "will-navigate"; ERemoveListener id "did-start-navigation"]
        else [])
       ++ [EOn id "will-navigate"; EOn id "did-start-navigation"]).
Proof.
  unfold addWebContentsEventListeners, removeWebContentsListeners. unfold_monad.
  cbn [listeners set_customLogins].
  destruct (decide (id ∈ listeners w)); reflexivity.
Qed.

(** Registration creates the record of the view, with the flag down. *)
Lemma addWebContentsEventListeners_record id w :
  let r := addWebContentsEventListeners id w in
  outcome r = Normal tt
  /\ customLogins (after r) !! id = Some {| inProgress := false |}
  /\ popupWindow (after r) = popupWindow w
  /\ windows (after r) = windows w.
Proof.
  unfold addWebContentsEventListeners, removeWebContentsListeners. unfold_monad.
  cbn. destruct (decide (id ∈ listeners w)); cbn; rewrite lookup_insert_eq; auto.
Qed.

Lemma ensurePopupWindow_reuse spellcheck w p :
  popupWindow w = Some p ->
  ensurePopupWindow spellcheck w = mkRun (Normal p) w [].
Proof.
  intros H. unfold ensurePopupWindow. unfold_monad. rewrite H. reflexivity.
Qed.

Lemma ensurePopupWindow_new spellcheck w :
  popupWindow w = None ->
  ensurePopupWindow spellcheck w
  = mkRun (Normal (nextWindow w)) (withNewPopup spellcheck w)
      [ENewBrowserWindow (nextWindow w) (spellcheckPref (popupBrowserWindow spellcheck))].
Proof.
  intros H. unfold ensurePopupWindow, newBrowserWindow. unfold_monad. rewrite H.
  unfold_monad. unfold withNewPopup, set_windows, set_popupWindow. cbn.
  rewrite !alter_insert_eq. reflexivity.
Qed.

Section NewWindow.

Variable urlUtils : UrlUtils.
Variable windowManager : WindowManager.
Variable electron : Electron.
Variable scheme : option string.
Variable composeUserAgent : string.

Abbreviation newWindow :=
  (generateNewWindowListener urlUtils windowManager electron scheme composeUserAgent).

(** What the handler does once the request has reached the server rules. *)
Lemma newWindow_server_rules webContentsId spellcheck url u s w :
  reachesServerRules urlUtils windowManager scheme webContentsId url u s ->
  newWindow webContentsId spellcheck url w
  = if isTeamUrl urlUtils s (Some u) (Some true)
    then mkRun (Normal Deny) w
           [ELog Debug "webContentEvents.new-window"; EShowMainWindow u]
    else if isAdminUrl urlUtils s (Some u)
    then mkRun (Normal Deny) w
           [ELog Debug "webContentEvents.new-window";
            ELog Info (url ++ " is an admin console page, preventing to open a new window")]
    else if popupShows electron w url
    then mkRun (Normal Deny) w
           [ELog Debug "webContentEvents.new-window";
            ELog Info ("Popup window already open at provided url: " ++ url)]
    else if isManagedResource urlUtils s (Some u)
    then mkRun (Normal Deny) (popupWorld w spellcheck)
           (ELog Debug "webContentEvents.new-window" :: popupTrace w spellcheck url None)
    else if isPluginUrl urlUtils s (Some u)
    then mkRun (Normal Deny) (popupWorld w spellcheck)
           (ELog Debug "webContentEvents.new-window"
            :: popupTrace w spellcheck url (Some composeUserAgent))
    else mkRun (Normal Deny) w
           [ELog Debug "webContentEvents.new-window"; EOpenExternal url].
Proof.
  intros (Hp & Hdev & Hweb & Hvalid & Hs & Hpath).
  unfold webProtocol in Hweb. unfold externalPath in Hpath.
  apply orb_false_elim in Hpath as [Hpath Hhelp].
  apply orb_false_elim in Hpath as [Hfiles Himage].
  unfold generateNewWindowListener. unfold_monad.
  rewrite Hp, Hdev.
  replace (negb (String.eqb (protocol u) "http:") && negb (String.eqb (protocol u) "https:")
           && negb (String.eqb (protocol u) (schemeProtocol scheme))) with false
    by (rewrite <- !negb_orb, Hweb; reflexivity).
  rewrite Hvalid, Hs, Hfiles, Himage, Hhelp. cbn [negb].
  destruct (isTeamUrl _ _ _ _); [reflexivity|].
  destruct (isAdminUrl _ _ _); [reflexivity|].
  unfold popupShows, popupTrace, popupWorld.
  destruct (popupWindow w) as [p|] eqn:Hpop.
  - destruct (String.eqb (getURL electron p) url); [reflexivity|].
    destruct (isManagedResource _ _ _), (isPluginUrl _ _ _); cbn [orb];
      try reflexivity;
      rewrite (ensurePopupWindow_reuse _ _ p Hpop); reflexivity.
  - destruct (isManagedResource _ _ _), (isPluginUrl _ _ _); cbn [orb];
      try reflexivity;
      rewrite (ensurePopupWindow_new _ _ Hpop); reflexivity.
Qed.

(** What the handler does when the request stops before the server rules. *)
Lemma newWindow_early_rules webContentsId spellcheck url w :
  (forall u s, ~ reachesServerRules urlUtils windowManager scheme webContentsId url u s) ->
  newWindow webContentsId spellcheck url w
  = match parseURL urlUtils url with
    | None =>
        mkRun (Normal Deny) w
          [ELog Debug "webContentEvents.new-window"; ELog Warn ("Ignoring non-url " ++ url)]
    | Some u =>
        if String.eqb (protocol u) "devtools:"
        then mkRun (Normal Allow) w [ELog Debug "webContentEvents.new-window"]
        else if negb (webProtocol scheme u)
        then mkRun (Normal Deny) w
               [ELog Debug "webContentEvents.new-window";
                EHandleDialogEvent (protocol u) url]
        else mkRun (Normal Deny) w
               [ELog Debug "webContentEvents.new-window"; EOpenExternal url]
    end.
Proof.
  intros Hnot.
  unfold generateNewWindowListener. unfold_monad.
  destruct (parseURL urlUtils url) as [u|] eqn:Hp; [|reflexivity].
  destruct (String.eqb (protocol u) "devtools:") eqn:Hdev; [reflexivity|].
  unfold webProtocol. rewrite !negb_orb.
  destruct (negb _ && negb _ && negb _) eqn:Hweb; [reflexivity|].
  destruct (isValidURI urlUtils url) eqn:Hvalid; [|reflexivity]. cbn [negb].
  destruct (getServerURLFromWebContentsId windowManager webContentsId) as [s|] eqn:Hs;
    [|reflexivity].
  destruct (matches_prefix publicFilesPattern (pathname u)) eqn:Hfiles; [reflexivity|].
  destruct (matches_prefix imageProxyPattern (pathname u)) eqn:Himage; [reflexivity|].
  destruct (matches_prefix helpPattern (pathname u)) eqn:Hhelp; [reflexivity|].
  exfalso. apply (Hnot u s). unfold reachesServerRules, webProtocol, externalPath.
  rewrite Hfiles, Himage, Hhelp. repeat split; auto.
  rewrite <- !negb_orb in Hweb. apply negb_false_iff in Hweb. exact Hweb.
Qed.

End NewWindow.

Section NewWindowFrame.

Variable urlUtils : UrlUtils.
Variable windowManager : WindowManager.
Variable electron : Electron.
Variable scheme : option string.
Variable composeUserAgent : string.

Abbreviation newWindow' :=
  (generateNewWindowListener urlUtils windowManager electron scheme composeUserAgent).
Abbreviation reaches := (reachesServerRules urlUtils windowManager scheme).

Lemma reachesServerRules_dec webContentsId url :
  (exists u s, reaches webContentsId url u s)
  \/ (forall u s, ~ reaches webContentsId url u s).
Proof.
  unfold reachesServerRules.
  destruct (parseURL urlUtils url) as [u|]; [|right; intros u s (H & _); discriminate].
  destruct (getServerURLFromWebContentsId windowManager webContentsId) as [s|];
    [|right; intros u' s (_ & _ & _ & _ & H & _); discriminate].
  destruct (String.eqb (protocol u) "devtools:") eqn:Hdev;
    [right; intros u' s' (H & H' & _); injection H as <-; congruence|].
  destruct (webProtocol scheme u) eqn:Hweb;
    [|right; intros u' s' (H & _ & H' & _); injection H as <-; congruence].
  destruct (isValidURI urlUtils url) eqn:Hvalid;
    [|right; intros u' s' (_ & _ & _ & H & _); discriminate].
  destruct (externalPath u) eqn:Hpath;
    [right; intros u' s' (H & _ & _ & _ & _ & H'); injection H as <-; congruence|].
  left. exists u, s. repeat split; assumption || reflexivity.
Qed.

(** The window-open handler always returns. It leaves the state alone,
    building and loading nothing, or, when there is no popup, it builds one;
    and it loads a page only into the window the reference names afterwards. *)
Lemma newWindow_frame webContentsId spellcheck url w :
  let r := newWindow' webContentsId spellcheck url w in
  (exists a, outcome r = Normal a)
  /\ ((after r = w /\ existsb createsWindow (trace r) = false)
      \/ (popupWindow w = None /\ after r = withNewPopup spellcheck w
          /\ existsb createsWindow (trace r) = true))
  /\ (existsb loadsURL (trace r) = true ->
      popupShows electron w url = false
      /\ exists p ua, popupWindow (after r) = Some p
           /\ filter (fun e => loadsURL e) (trace r) = [ELoadURL p url ua]).
Proof.
  cbv zeta.
  destruct (reachesServerRules_dec webContentsId url) as [(u & s & Hr)|Hn].
  - rewrite (newWindow_server_rules _ _ _ _ _ _ _ _ u s w Hr).
    unfold popupTrace, popupWorld.
    destruct (isTeamUrl _ _ _ _); [cbn; split; [eauto|split; [auto|discriminate]]|].
    destruct (isAdminUrl _ _ _); [cbn; split; [eauto|split; [auto|discriminate]]|].
    destruct (popupShows electron w url) eqn:Hshow;
      [cbn; split; [eauto|split; [auto|discriminate]]|].
    destruct (isManagedResource _ _ _);
      [|destruct (isPluginUrl _ _ _);
        [|cbn; split; [eauto|split; [auto|discriminate]]]].
    all: destruct (popupWindow w) as [p|] eqn:Hpop; cbn;
      (split; [eauto|split; [auto|intros _; split; [reflexivity|]]]).
    all: try (rewrite Hpop); eauto.
  - rewrite (newWindow_early_rules _ _ _ scheme _ _ _ _ w Hn).
    destruct (parseURL urlUtils url) as [u|];
      [|cbn; split; [eauto|split; [auto|discriminate]]].
    destruct (String.eqb (protocol u) "devtools:");
      [cbn; split; [eauto|split; [auto|discriminate]]|].
    destruct (negb (webProtocol scheme u));
      cbn; (split; [eauto|split; [auto|discriminate]]).
Qed.

End NewWindowFrame.

(** ** Signals of the popup *)

Lemma emitClosed_absent p w :
  windows w !! p = None -> emitClosed p w = mkRun (Normal tt) w [].
Proof. intros H. unfold emitClosed. unfold_monad. rewrite H. reflexivity. Qed.

Lemma emitClosed_present p bw w :
  windows w !! p = Some bw ->
  onceClosed bw = [ClearPopup] ->
  emitClosed p w
  = mkRun (Normal tt) (set_popupWindow None (set_windows (delete p) w)) [].
Proof.
  intros H Hc. unfold emitClosed. unfold_monad. rewrite H. unfold_monad.
  rewrite Hc. reflexivity.
Qed.

Lemma emitReadyToShow_absent p w :
  windows w !! p = None -> emitReadyToShow p w = mkRun (Normal tt) w [].
Proof. intros H. unfold emitReadyToShow. unfold_monad. rewrite H. reflexivity. Qed.

Lemma emitReadyToShow_present p bw w :
  windows w !! p = Some bw ->
  popupWindow w = Some p ->
  (onceReadyToShow bw = [ShowPopup] \/ onceReadyToShow bw = []) ->
  emitReadyToShow p w
  = mkRun (Normal tt) (set_windows (alter clearReadyToShow p) w)
      (match onceReadyToShow bw with [] => [] | _ => [EShow p] end).
Proof.
  intros H Hp [Hr|Hr]; unfold emitReadyToShow; unfold_monad; rewrite H; unfold_monad;
    rewrite Hr; cbn [runCallbacks runCallback]; unfold_monad;
    cbn [popupWindow set_windows]; rewrite ?Hp; reflexivity.
Qed.

Lemma after_discard {A} (m : M A) w :
  after ((_ <- m ;; ret tt) w) = after (m w).
Proof. unfold bind. destruct (outcome (m w)); reflexivity. Qed.

Lemma removeWebContentsListeners_state id w :
  after (removeWebContentsListeners id w) = w.
Proof.
  unfold removeWebContentsListeners. unfold_monad.
  destruct (decide (id ∈ listeners w)); reflexivity.
Qed.

(** How one event moves the popup reference and the open windows. *)
Lemma step_popup h e w :
  popupInvariant w ->
  popupInvariant (step w (h, e))
  /\ (forall p, popupWindow w = Some p ->
      (e = Closed p /\ popupWindow (step w (h, e)) = None)
      \/ (e <> Closed p /\ popupWindow (step w (h, e)) = Some p)).
Proof.
  intros Hinv. unfold step. cbn [fst snd].
  destruct e as [sender url|sender url|id sc url|url|id|id|q|q]; cbn [handle].
  - rewrite willNavigate_state. split; [assumption|]. intros p Hp. right. split; congruence.
  - destruct (didStartNavigation_frame (hostUrlUtils h) (hostWindowManager h) sender url w)
      as (_ & Hpop & Hwin & _).
    unfold popupInvariant in *. rewrite Hpop, Hwin.
    split; [assumption|]. intros p Hp. right. split; congruence.
  - rewrite after_discard.
    destruct (newWindow_frame (hostUrlUtils h) (hostWindowManager h) (hostElectron h)
                (hostScheme h) (hostUserAgent h) id sc url w)
      as (_ & [[-> _]|(Hnone & -> & _)] & _).
    + split; [assumption|]. intros p Hp. right. split; congruence.
    + split.
      * unfold popupInvariant in *. rewrite Hnone in Hinv. cbn.
        exists (popupBrowserWindow sc). rewrite Hinv, insert_empty. cbn. auto.
      * intros p Hp. congruence.
  - cbn. split; [assumption|]. intros p Hp. right. split; congruence.
  - destruct (addWebContentsEventListeners_record id w) as (_ & _ & Hpop & Hwin).
    unfold popupInvariant in *. rewrite Hpop, Hwin.
    split; [assumption|]. intros p Hp. right. split; congruence.
  - rewrite removeWebContentsListeners_state.
    split; [assumption|]. intros p Hp. right. split; congruence.
  - unfold popupInvariant in Hinv.
    destruct (popupWindow w) as [p|] eqn:Hp.
    + destruct Hinv as (bw & Hw & Hc & Hr).
      destruct (decide (q = p)) as [->|Hne].
      * rewrite (emitReadyToShow_present p bw) by (rewrite ?Hw, ?lookup_singleton_eq; auto).
        cbn. split.
        -- unfold popupInvariant. cbn. rewrite Hp, Hw, alter_singleton_eq.
           exists (clearReadyToShow bw). cbn. auto.
        -- intros p' Hp'. right. split; congruence.
      * rewrite emitReadyToShow_absent by (rewrite Hw, lookup_singleton_ne; congruence).
        cbn. split.
        -- unfold popupInvariant. rewrite Hp. eauto.
        -- intros p' Hp'. right. split; congruence.
    + rewrite emitReadyToShow_absent by (rewrite Hinv; apply lookup_empty).
      cbn. split.
      * unfold popupInvariant. rewrite Hp. assumption.
      * intros p' Hp'. discriminate.
  - unfold popupInvariant in Hinv.
    destruct (popupWindow w) as [p|] eqn:Hp.
    + destruct Hinv as (bw & Hw & Hc & Hr).
      destruct (decide (q = p)) as [->|Hne].
      * rewrite (emitClosed_present p bw) by (rewrite ?Hw, ?lookup_singleton_eq; auto).
        cbn. split.
        -- unfold popupInvariant. cbn. rewrite Hw. apply delete_singleton_eq.
        -- intros p' Hp'. left. split; congruence.
      * rewrite emitClosed_absent by (rewrite Hw, lookup_singleton_ne; congruence).
        cbn. split.
        -- unfold popupInvariant. rewrite Hp. eauto.
        -- intros p' Hp'. right. split; congruence.
    + rewrite emitClosed_absent by (rewrite Hinv; apply lookup_empty).
      cbn. split.
      * unfold popupInvariant. rewrite Hp. assumption.
      * intros p' Hp'. discriminate.
Qed.

Lemma initial_popupInvariant : popupInvariant initial.
Proof. reflexivity. Qed.

Lemma runEvents_popupInvariant events w :
  popupInvariant w -> popupInvariant (runEvents events w).
Proof.
  revert w. induction events as [|[h e] events IH]; intros w Hinv; cbn.
  - assumption.
  - apply IH. apply step_popup. assumption.
Qed.

Lemma popupInvariant_size w :
  popupInvariant w -> (size (windows w) <= 1)%nat.
Proof.
  unfold popupInvariant. destruct (popupWindow w).
  - intros (bw & -> & _). rewrite map_size_singleton. lia.
  - intros ->. rewrite map_size_empty. lia.
Qed.

Lemma recordInvariant_ext w w' :
  customLogins w' = customLogins w -> listeners w' = listeners w ->
  recordInvariant w -> recordInvariant w'.
Proof. unfold recordInvariant. intros -> ->. auto. Qed.

Lemma runCallbacks_frame cs w :
  customLogins (after (runCallbacks cs w)) = customLogins w
  /\ listeners (after (runCallbacks cs w)) = listeners w.
Proof.
  revert w. induction cs as [|c cs IH]; intros w; [split; reflexivity|].
  cbn [runCallbacks]. unfold bind.
  destruct c; cbn [runCallback]; unfold_monad.
  - destruct (popupWindow w); cbn; [apply IH|split; reflexivity].
  - cbn [after]. apply (IH (set_popupWindow None w)).
Qed.

Lemma emitReadyToShow_frame p w :
  customLogins (after (emitReadyToShow p w)) = customLogins w
  /\ listeners (after (emitReadyToShow p w)) = listeners w.
Proof.
  unfold emitReadyToShow. unfold_monad.
  destruct (windows w !! p) as [bw|]; [|split; reflexivity].
  unfold_monad.
  destruct (runCallbacks_frame (onceReadyToShow bw) (set_windows (alter clearReadyToShow p) w))
    as [Hc Hl].
  destruct (runCallbacks _ _) as [[]]; exact (conj Hc Hl).
Qed.

Lemma emitClosed_frame p w :
  customLogins (after (emitClosed p w)) = customLogins w
  /\ listeners (after (emitClosed p w)) = listeners w.
Proof.
  unfold emitClosed. unfold_monad.
  destruct (windows w !! p) as [bw|]; [|split; reflexivity].
  unfold_monad.
  destruct (runCallbacks_frame (onceClosed bw) (set_windows (delete p) w)) as [Hc Hl].
  destruct (runCallbacks _ _) as [[]]; exact (conj Hc Hl).
Qed.

(** A registered view keeps its custom-login record through every event. *)
Lemma step_recordInvariant h e w :
  recordInvariant w -> recordInvariant (step w (h, e)).
Proof.
  intros Hinv. unfold step. cbn [fst snd].
  destruct e as [sender url|sender url|id sc url|url|id|id|q|q]; cbn [handle].
  - rewrite willNavigate_state. assumption.
  - destruct (didStartNavigation_frame (hostUrlUtils h) (hostWindowManager h) sender url w)
      as (Hl & _ & _ & _ & _ & Hkeep).
    intros id Hid. rewrite Hl in Hid. apply Hkeep, Hinv, Hid.
  - rewrite after_discard.
    destruct (newWindow_frame (hostUrlUtils h) (hostWindowManager h) (hostElectron h)
                (hostScheme h) (hostUserAgent h) id sc url w)
      as (_ & [[-> _]|(Hnone & -> & _)] & _); [assumption|].
    exact Hinv.
  - cbn. assumption.
  - rewrite addWebContentsEventListeners_run. cbn [after].
    intros id' Hid'. cbn [set_listeners set_customLogins customLogins listeners] in *.
    destruct (decide (id = id')) as [->|Hne].
    + rewrite lookup_insert_eq. eauto.
    + rewrite lookup_insert_ne by assumption. apply Hinv.
      apply elem_of_union in Hid' as [Hid'|Hid']; [|assumption].
      apply elem_of_singleton in Hid'. congruence.
  - rewrite removeWebContentsListeners_state. assumption.
  - destruct (emitReadyToShow_frame q w) as [Hc Hl].
    exact (recordInvariant_ext _ _ Hc Hl Hinv).
  - destruct (emitClosed_frame q w) as [Hc Hl].
    exact (recordInvariant_ext _ _ Hc Hl Hinv).
Qed.

Lemma runEvents_recordInvariant events w :
  recordInvariant w -> recordInvariant (runEvents events w).
Proof.
  revert w. induction events as [|[h e] events IH]; intros w Hinv; cbn.
  - assumption.
  - apply IH. apply step_recordInvariant. assumption.
Qed.

(** In every state reached from the constructor, a registered view has its
    custom-login flag. *)
Lemma registered_view_has_flag events id :
  id ∈ listeners (runEvents events initial) ->
  is_Some (flag (runEvents events initial) id).
Proof.
  intros Hid. unfold flag.
  assert (Hinit : recordInvariant initial).
  { intros id' Hid'. cbn in Hid'. apply not_elem_of_empty in Hid'. destruct Hid'. }
  destruct (runEvents_recordInvariant events initial Hinit id Hid) as [cl Hcl].
  rewrite Hcl. cbn. eauto.
Qed.

(** * The navigation interceptor and the login-flow tracker *)

Section NavigationClaims.

Variable urlUtils : UrlUtils.
Variable windowManager : WindowManager.
Variable electron : Electron.

Abbreviation serverOf := (getServerURLFromWebContentsId windowManager).
Abbreviation parsed := (parseURL urlUtils).

(** What the handler does of C1.  For a [will-navigate] event from a view
    whose server origin is known: when the destination is the server's team
    URL or its admin-console URL the handler returns without calling
    [preventDefault]; and when the destination URL parses and none of the
    allow rules (team, admin or trusted popup; channel export; custom login;
    mailto; login in progress; calls pop-out) matches, the handler calls
    [preventDefault]. *)
Theorem willNavigate_allows_server_pages_and_cancels_the_rest sender url w s :
  serverOf sender = Some s ->
  let r := generateWillNavigate urlUtils windowManager electron sender url w in
  (isTeamUrl urlUtils s (parsed url) None = true
   \/ isAdminUrl urlUtils s (parsed url) = true ->
   outcome r = Normal tt /\ after r = w
   /\ existsb preventsDefault (trace r) = false)
  /\ (forall u, parsed url = Some u ->
      noAllowRule urlUtils windowManager electron w sender url = true ->
      outcome r = Normal tt /\ after r = w
      /\ trace r = [ELog Debug "webContentEvents.will-navigate";
                    ELog Info ("Prevented desktop from navigating to: " ++ url);
                    EPreventDefault]).
Proof.
  intros Hs r. subst r. split.
  - intros Hallow.
    rewrite willNavigate_rule1; [cbn; auto|].
    unfold teamAdminOrPopupRule. rewrite Hs. cbn [withServer].
    destruct Hallow as [-> | ->]; [reflexivity|].
    rewrite orb_true_r. reflexivity.
  - intros u Hu Hnone.
    rewrite (willNavigate_parsed _ _ _ _ _ _ u Hu), Hnone. cbn. auto.
Qed.

(** What the handler does of C8.  For a [will-navigate] event from a view
    whose custom-login flag is set, whose destination URL parses and matches
    none of the earlier allow rules (team, admin or trusted popup; channel
    export; custom login; mailto), the handler lets the navigation go on and
    asks for a flush of the default session's cookie store; with no server
    origin for the view, rules 1 to 3 cannot match, so this holds as soon as
    the destination is no [mailto:] URL. *)
Theorem willNavigate_login_in_progress_flushes_cookies sender url w u :
  parsed url = Some u ->
  loginInProgressRule w sender = true ->
  let r := generateWillNavigate urlUtils windowManager electron sender url w in
  (noEarlierRule urlUtils windowManager electron w sender url = true ->
   r = mkRun (Normal tt) w
         [ELog Debug "webContentEvents.will-navigate"; EFlushCookiesStore])
  /\ (serverOf sender = None -> mailtoRule urlUtils url = false ->
      r = mkRun (Normal tt) w
            [ELog Debug "webContentEvents.will-navigate"; EFlushCookiesStore]).
Proof.
  intros Hu Hin r. subst r.
  assert (Hgen : noEarlierRule urlUtils windowManager electron w sender url = true ->
            generateWillNavigate urlUtils windowManager electron sender url w
            = mkRun (Normal tt) w
                [ELog Debug "webContentEvents.will-navigate"; EFlushCookiesStore]).
  { intros Hearly. rewrite (willNavigate_parsed _ _ _ _ _ _ u Hu).
    unfold noAllowRule. rewrite Hearly, Hin. reflexivity. }
  split; [exact Hgen|].
  intros Hnone Hmail. apply Hgen.
  unfold noEarlierRule, teamAdminOrPopupRule, channelExportRule, customLoginRule.
  rewrite Hnone, Hmail. reflexivity.
Qed.

(** C2.  For a [did-start-navigation] event: when no server origin is known
    for the view, or the destination is not trusted for that origin, the
    state, and with it the view's flag, is unchanged.  Otherwise, for a view
    that has its custom-login flag: when the destination matches the
    server's custom-login pattern the flag becomes true, whatever it was;
    and when it does not, the flag was true and the destination is an
    internal URL of the server, the flag becomes false. *)
Theorem didStartNavigation_tracks_custom_login sender url w :
  let r := generateDidStartNavigation urlUtils windowManager sender url w in
  ((serverOf sender = None
    \/ exists s, serverOf sender = Some s /\ isTrustedURL urlUtils (parsed url) s = false) ->
   after r = w /\ flag (after r) sender = flag w sender)
  /\ (forall s b,
      serverOf sender = Some s ->
      isTrustedURL urlUtils (parsed url) s = true ->
      flag w sender = Some b ->
      (isCustomLoginURL urlUtils (parsed url) s = true ->
       flag (after r) sender = Some true)
      /\ (isCustomLoginURL urlUtils (parsed url) s = false ->
          b = true ->
          isInternalURL urlUtils s (parsed url) = true ->
          flag (after r) sender = Some false)).
Proof.
  intros r. subst r. split.
  - intros Hignore.
    rewrite didStartNavigation_ignored; [cbn; auto|].
    unfold trustedFor.
    destruct Hignore as [-> | (s & -> & Ht)]; [reflexivity|exact Ht].
  - intros s b Hs Ht Hflag. unfold flag in Hflag.
    destruct (customLogins w !! sender) as [cl|] eqn:Hcl; [|discriminate].
    cbn in Hflag. injection Hflag as Hb.
    rewrite (didStartNavigation_with_record _ _ _ _ _ cl s Hcl Hs Ht). cbn [after].
    split.
    + intros ->. unfold flag. cbn. rewrite lookup_insert_eq. reflexivity.
    + intros -> -> ->. rewrite Hb. cbn.
      unfold flag. cbn. rewrite lookup_insert_eq. reflexivity.
Qed.

(** C10.  The [did-start-navigation] handler returns for every event of a
    view that has a custom-login record, and so for every view registered by
    [addWebContentsEventListeners]; for a view with no record and a
    destination trusted for the view's server origin, it reads the record
    without a guard and throws instead of doing nothing. *)
Theorem didStartNavigation_total_only_with_record sender url w :
  let r := generateDidStartNavigation urlUtils windowManager sender url w in
  (is_Some (customLogins w !! sender) -> outcome r = Normal tt)
  /\ (forall s,
      customLogins w !! sender = None ->
      serverOf sender = Some s ->
      isTrustedURL urlUtils (parsed url) s = true ->
      outcome r = TypeError /\ after r = w)
  /\ outcome (generateDidStartNavigation urlUtils windowManager sender url
                (after (addWebContentsEventListeners sender w))) = Normal tt.
Proof.
  assert (Hrec : forall w0, is_Some (customLogins w0 !! sender) ->
            outcome (generateDidStartNavigation urlUtils windowManager sender url w0)
            = Normal tt).
  { intros w0 [cl Hcl].
    destruct (trustedFor urlUtils windowManager sender url) eqn:Ht.
    - unfold trustedFor in Ht.
      destruct (serverOf sender) as [s|] eqn:Hs; [|discriminate].
      cbn [withServer] in Ht.
      rewrite (didStartNavigation_with_record _ _ _ _ _ cl s Hcl Hs Ht). reflexivity.
    - rewrite didStartNavigation_ignored by assumption. reflexivity. }
  intros r. subst r. split; [apply Hrec|]. split.
  - intros s Hcl Hs Ht.
    rewrite (didStartNavigation_without_record _ _ _ _ _ s Hcl Hs Ht). cbn. auto.
  - apply Hrec.
    destruct (addWebContentsEventListeners_record sender w) as (_ & -> & _). eauto.
Qed.

End NavigationClaims.

(** * The new-window policy *)

Section NewWindowClaims.

Variable urlUtils : UrlUtils.
Variable windowManager : WindowManager.
Variable electron : Electron.
Variable scheme : option string.
Variable composeUserAgent : string.

Abbreviation policy :=
  (generateNewWindowListener urlUtils windowManager electron scheme composeUserAgent).

Lemma http_reaches webContentsId url u s :
  parseURL urlUtils url = Some u ->
  protocol u = "http:" \/ protocol u = "https:" ->
  isValidURI urlUtils url = true ->
  getServerURLFromWebContentsId windowManager webContentsId = Some s ->
  externalPath u = false ->
  reachesServerRules urlUtils windowManager scheme webContentsId url u s.
Proof.
  intros Hu Hproto Hvalid Hs Hpath. unfold reachesServerRules, webProtocol.
  destruct Hproto as [-> | ->]; repeat split; auto.
Qed.

(** C3.  A window-open request from a view with a known server origin,
    whose URL parses, is an HTTP(S) URL, is valid, has none of the
    public-file, image-proxy or help paths, is not the team URL and is the
    server's admin-console URL, is denied: the state is unchanged, and
    nothing is opened in the external browser, built, or loaded. *)
Theorem newWindow_admin_console_is_denied webContentsId spellcheck url u s w :
  parseURL urlUtils url = Some u ->
  protocol u = "http:" \/ protocol u = "https:" ->
  isValidURI urlUtils url = true ->
  getServerURLFromWebContentsId windowManager webContentsId = Some s ->
  externalPath u = false ->
  isTeamUrl urlUtils s (Some u) (Some true) = false ->
  isAdminUrl urlUtils s (Some u) = true ->
  let r := policy webContentsId spellcheck url w in
  outcome r = Normal Deny
  /\ after r = w
  /\ existsb opensExternal (trace r) = false
  /\ existsb createsWindow (trace r) = false
  /\ existsb loadsURL (trace r) = false.
Proof.
  intros Hu Hproto Hvalid Hs Hpath Hteam Hadmin r. subst r.
  rewrite (newWindow_server_rules _ _ _ _ _ _ _ _ u s w)
    by (eapply http_reaches; eassumption).
  rewrite Hteam, Hadmin. cbn. auto.
Qed.

(** C4, amended.  A window-open request whose URL the parser rejects is
    denied with a warning in the log, and nothing is opened.  A request whose
    URL parses, is no devtools URL, has protocol [http:], [https:] or the
    custom scheme, and fails the validity check, is opened in the external
    browser and denied. *)
Theorem newWindow_malformed_url webContentsId spellcheck url w :
  let r := policy webContentsId spellcheck url w in
  (parseURL urlUtils url = None ->
   r = mkRun (Normal Deny) w
         [ELog Debug "webContentEvents.new-window"; ELog Warn ("Ignoring non-url " ++ url)])
  /\ (forall u,
      parseURL urlUtils url = Some u ->
      String.eqb (protocol u) "devtools:" = false ->
      webProtocol scheme u = true ->
      isValidURI urlUtils url = false ->
      r = mkRun (Normal Deny) w
            [ELog Debug "webContentEvents.new-window"; EOpenExternal url]).
Proof.
  intros r. subst r. split.
  - intros Hu. rewrite newWindow_early_rules.
    + rewrite Hu. reflexivity.
    + intros u s (H & _). congruence.
  - intros u Hu Hdev Hweb Hvalid. rewrite newWindow_early_rules.
    + rewrite Hu, Hdev, Hweb. reflexivity.
    + intros u' s (_ & _ & _ & H & _). congruence.
Qed.

(** C5, amended.  A window-open request whose parsed URL's protocol is none
    of [http:], [https:] and the custom scheme never reaches the popup
    branch: the state is unchanged and nothing is built or loaded.  When
    the protocol is not [devtools:] either, the protocol-confirmation dialog
    is invoked with the protocol and the URL, and the request is denied; a
    [devtools:] URL is allowed, with no dialog. *)
Theorem newWindow_other_protocol webContentsId spellcheck url u w :
  parseURL urlUtils url = Some u ->
  webProtocol scheme u = false ->
  let r := policy webContentsId spellcheck url w in
  after r = w
  /\ existsb createsWindow (trace r) = false
  /\ existsb loadsURL (trace r) = false
  /\ (String.eqb (protocol u) "devtools:" = false ->
      outcome r = Normal Deny
      /\ trace r = [ELog Debug "webContentEvents.new-window";
                    EHandleDialogEvent (protocol u) url])
  /\ (String.eqb (protocol u) "devtools:" = true ->
      outcome r = Normal Allow
      /\ trace r = [ELog Debug "webContentEvents.new-window"]).
Proof.
  intros Hu Hweb r. subst r.
  rewrite newWindow_early_rules.
  2:{ intros u' s (H & _ & H' & _). rewrite Hu in H. injection H as <-. congruence. }
  rewrite Hu, Hweb. cbn [negb].
  destruct (String.eqb (protocol u) "devtools:"); cbn;
    repeat split; auto; discriminate.
Qed.

(** C6, amended.  A window-open request that arrives while the shared popup
    exists and shows exactly the requested URL builds no window and loads
    no URL, and leaves the state unchanged.  It is denied unless the URL
    is a [devtools:] URL.  It opens the external browser exactly when the
    URL parses, is no devtools URL, has a web protocol, and is invalid, or
    comes from a view with no server origin, or has a public-file,
    image-proxy or help path. *)
Theorem newWindow_popup_already_there webContentsId spellcheck url w :
  popupShows electron w url = true ->
  let r := policy webContentsId spellcheck url w in
  after r = w
  /\ existsb createsWindow (trace r) = false
  /\ existsb loadsURL (trace r) = false
  /\ ((forall u, parseURL urlUtils url = Some u ->
                 String.eqb (protocol u) "devtools:" = false) ->
      outcome r = Normal Deny)
  /\ (existsb opensExternal (trace r) = true <->
      exists u, parseURL urlUtils url = Some u
        /\ String.eqb (protocol u) "devtools:" = false
        /\ webProtocol scheme u = true
        /\ (isValidURI urlUtils url = false
            \/ getServerURLFromWebContentsId windowManager webContentsId = None
            \/ externalPath u = true)).
Proof.
  intros Hshow r. subst r.
  destruct (reachesServerRules_dec urlUtils windowManager scheme webContentsId url)
    as [(u & s & Hr)|Hn].
  - rewrite (newWindow_server_rules _ _ _ _ _ _ _ _ u s w Hr), Hshow.
    destruct Hr as (Hu & Hdev & Hweb & Hvalid & Hs & Hpath).
    assert (Hno : ~ exists u0, parseURL urlUtils url = Some u0
        /\ String.eqb (protocol u0) "devtools:" = false
        /\ webProtocol scheme u0 = true
        /\ (isValidURI urlUtils url = false
            \/ getServerURLFromWebContentsId windowManager webContentsId = None
            \/ externalPath u0 = true)).
    { intros (u0 & Hu0 & _ & _ & Hor). rewrite Hu in Hu0. injection Hu0 as <-.
      destruct Hor as [H|[H|H]]; congruence. }
    destruct (isTeamUrl _ _ _ _); [|destruct (isAdminUrl _ _ _)]; cbn;
      (repeat split; auto; try discriminate; intros H; destruct (Hno H)).
  - rewrite (newWindow_early_rules _ _ _ scheme _ _ _ _ w Hn).
    destruct (parseURL urlUtils url) as [u|] eqn:Hu.
    2:{ cbn. repeat split; auto; [discriminate|]. intros (u & H & _). discriminate. }
    destruct (String.eqb (protocol u) "devtools:") eqn:Hdev.
    { cbn. repeat split; auto.
      - intros H. specialize (H u eq_refl). congruence.
      - discriminate.
      - intros (u0 & Hu0 & Hdev0 & _). injection Hu0 as <-. congruence. }
    destruct (webProtocol scheme u) eqn:Hweb; cbn.
    + repeat split; auto. intros _. exists u. repeat split; auto.
      destruct (isValidURI urlUtils url) eqn:Hvalid; [|auto].
      destruct (getServerURLFromWebContentsId windowManager webContentsId) as [s|] eqn:Hs;
        [|auto].
      destruct (externalPath u) eqn:Hpath; [auto|].
      exfalso. apply (Hn u s). repeat split; auto.
    + repeat split; auto; [discriminate|].
      intros (u0 & Hu0 & _ & Hweb0 & _). injection Hu0 as <-. congruence.
Qed.

(** C7.  In the popup branch, that is for a request that has reached the
    server rules, is neither the team URL nor the admin console, and is not
    what the popup already shows: a managed-resource URL is loaded into the
    popup with no user-agent override, and a plugin URL that is no managed
    resource is loaded into the popup with the composed desktop user agent.
    In both cases it is the only load, and the request is denied. *)
Theorem newWindow_popup_user_agent webContentsId spellcheck url u s w :
  reachesServerRules urlUtils windowManager scheme webContentsId url u s ->
  isTeamUrl urlUtils s (Some u) (Some true) = false ->
  isAdminUrl urlUtils s (Some u) = false ->
  popupShows electron w url = false ->
  let r := policy webContentsId spellcheck url w in
  (isManagedResource urlUtils s (Some u) = true ->
   outcome r = Normal Deny
   /\ exists p, popupWindow (after r) = Some p
        /\ filter (fun e => loadsURL e) (trace r) = [ELoadURL p url None])
  /\ (isPluginUrl urlUtils s (Some u) = true ->
      isManagedResource urlUtils s (Some u) = false ->
      outcome r = Normal Deny
      /\ exists p, popupWindow (after r) = Some p
           /\ filter (fun e => loadsURL e) (trace r)
              = [ELoadURL p url (Some composeUserAgent)]).
Proof.
  intros Hr Hteam Hadmin Hshow r. subst r.
  rewrite (newWindow_server_rules _ _ _ _ _ _ _ _ u s w Hr), Hteam, Hadmin, Hshow.
  unfold popupTrace, popupWorld. split.
  - intros ->. cbn. split; [reflexivity|].
    destruct (popupWindow w) as [p|] eqn:Hp; cbn; [rewrite Hp|]; eauto.
  - intros -> ->. cbn. split; [reflexivity|].
    destruct (popupWindow w) as [p|] eqn:Hp; cbn; [rewrite Hp|]; eauto.
Qed.

End NewWindowClaims.

(** * One popup at a time *)

(** C9.  The window-open handler builds a popup only when the popup
    reference is empty, and otherwise leaves the reference and the open
    windows as they are; in every state reached from the constructor, an
    event clears a set reference exactly when it is the [closed] signal of
    the window the reference names; and in every such state at most one
    popup window is open. *)
Theorem at_most_one_popup_window :
  (forall h webContentsId spellcheck url w,
     let r := generateNewWindowListener (hostUrlUtils h) (hostWindowManager h)
                (hostElectron h) (hostScheme h) (hostUserAgent h)
                webContentsId spellcheck url w in
     (existsb createsWindow (trace r) = true -> popupWindow w = None)
     /\ (forall p, popupWindow w = Some p -> after r = w))
  /\ (forall events h e p,
        popupWindow (runEvents events initial) = Some p ->
        popupWindow (step (runEvents events initial) (h, e)) = None <-> e = Closed p)
  /\ (forall events, (size (windows (runEvents events initial)) <= 1)%nat).
Proof.
  split; [|split].
  - intros h id sc url w r. subst r.
    destruct (newWindow_frame (hostUrlUtils h) (hostWindowManager h) (hostElectron h)
                (hostScheme h) (hostUserAgent h) id sc url w)
      as (_ & [[Hw Hc]|(Hnone & Hw & Hc)] & _).
    + split; [congruence|auto].
    + split; [auto|congruence].
  - intros events h e p Hp.
    pose proof (runEvents_popupInvariant events initial initial_popupInvariant) as Hinv.
    destruct (step_popup h e _ Hinv) as [_ Hstep].
    destruct (Hstep p Hp) as [[He Hq]|[He Hq]].
    + split; auto.
    + split; [congruence|]. intros He'. contradiction.
  - intros events. apply popupInvariant_size.
    apply runEvents_popupInvariant, initial_popupInvariant.
Qed.

(** * The claims on the sample deployment *)

(** On two destinations that parse: a channel of the team is let through, a
    foreign site is cancelled. *)
Lemma willNavigate_allows_server_pages_and_cancels_the_rest_witness :
  (let r := generateWillNavigate Sample.utils Sample.manager (Sample.showing "") 1
              "https://team.example.com/core/channels/town-square" Sample.registered in
   outcome r = Normal tt /\ after r = Sample.registered
   /\ existsb preventsDefault (trace r) = false)
  /\ (let r := generateWillNavigate Sample.utils Sample.manager (Sample.showing "") 1
                 "https://evil.example.org/" Sample.registered in
      outcome r = Normal tt /\ after r = Sample.registered
      /\ trace r = [ELog Debug "webContentEvents.will-navigate";
                    ELog Info "Prevented desktop from navigating to: https://evil.example.org/";
                    EPreventDefault]).
Proof.
  split.
  - apply (proj1 (willNavigate_allows_server_pages_and_cancels_the_rest
                    Sample.utils Sample.manager (Sample.showing "") 1
                    "https://team.example.com/core/channels/town-square"
                    Sample.registered Sample.server eq_refl)).
    left. reflexivity.
  - apply (proj2 (willNavigate_allows_server_pages_and_cancels_the_rest
                    Sample.utils Sample.manager (Sample.showing "") 1
                    "https://evil.example.org/"
                    Sample.registered Sample.server eq_refl)
             (mkURL "https:" "evil.example.org" "/")); reflexivity.
Defined.

(** C1.  The handler misses the destination that does not parse: the view's
    server origin is known and the destination matches no allow rule, so the
    navigation is to be cancelled, but the handler throws on
    [parsedURL.protocol] before it reaches [preventDefault], and the
    navigation goes on.  The window-open handler guards the same case and
    denies. *)
Lemma willNavigate_unparseable_destination_is_not_cancelled :
  let r := generateWillNavigate Sample.utils Sample.manager (Sample.showing "") 1
             "not a url" Sample.registered in
  getServerURLFromWebContentsId Sample.manager 1 = Some Sample.server
  /\ noAllowRule Sample.utils Sample.manager (Sample.showing "") Sample.registered 1
       "not a url" = true
  /\ outcome r = TypeError
  /\ existsb preventsDefault (trace r) = false.
Proof. repeat split; reflexivity. Qed.

(** On a view in the middle of a login that is sent to its identity
    provider, with and without a server origin for the view. *)
Lemma willNavigate_login_in_progress_flushes_cookies_witness :
  generateWillNavigate Sample.utils Sample.manager (Sample.showing "") 1
    "https://idp.example.org/saml/sso" Sample.loggingIn
  = mkRun (Normal tt) Sample.loggingIn
      [ELog Debug "webContentEvents.will-navigate"; EFlushCookiesStore]
  /\ generateWillNavigate Sample.utils Sample.detached (Sample.showing "") 1
       "https://idp.example.org/saml/sso" Sample.loggingIn
     = mkRun (Normal tt) Sample.loggingIn
         [ELog Debug "webContentEvents.will-navigate"; EFlushCookiesStore].
Proof.
  split.
  - apply (proj1 (willNavigate_login_in_progress_flushes_cookies
                    Sample.utils Sample.manager (Sample.showing "") 1
                    "https://idp.example.org/saml/sso" Sample.loggingIn
                    (mkURL "https:" "idp.example.org" "/saml/sso") eq_refl eq_refl)).
    reflexivity.
  - apply (proj2 (willNavigate_login_in_progress_flushes_cookies
                    Sample.utils Sample.detached (Sample.showing "") 1
                    "https://idp.example.org/saml/sso" Sample.loggingIn
                    (mkURL "https:" "idp.example.org" "/saml/sso") eq_refl eq_refl));
      reflexivity.
Defined.

(** C8.  The handler misses the destination that does not parse: the flag
    of the view is set and the destination matches none of the earlier
    rules, so the cookie store is to be flushed, but the handler throws on
    [parsedURL.protocol], the [mailto:] test, before it reaches the
    login-in-progress rule, and nothing is flushed. *)
Lemma willNavigate_unparseable_destination_is_not_flushed :
  let r := generateWillNavigate Sample.utils Sample.manager (Sample.showing "") 1
             "not a url" Sample.loggingIn in
  loginInProgressRule Sample.loggingIn 1 = true
  /\ noEarlierRule Sample.utils Sample.manager (Sample.showing "") Sample.loggingIn 1
       "not a url" = true
  /\ outcome r = TypeError
  /\ existsb flushesCookies (trace r) = false.
Proof. repeat split; reflexivity. Qed.

(** C2, on the three cases: a foreign destination, the custom-login URL,
    and the return to the server while a login is in progress. *)
Lemma didStartNavigation_tracks_custom_login_witness :
  flag (after (generateDidStartNavigation Sample.utils Sample.manager 1
                 "https://evil.example.org/" Sample.loggingIn)) 1
  = flag Sample.loggingIn 1
  /\ flag (after (generateDidStartNavigation Sample.utils Sample.manager 1
                    "https://team.example.com/oauth/gitlab/login" Sample.loggingIn)) 1
     = Some true
  /\ flag (after (generateDidStartNavigation Sample.utils Sample.manager 1
                    "https://team.example.com/core/channels/town-square"
                    Sample.loggingIn)) 1
     = Some false.
Proof.
  split; [|split].
  - apply (proj1 (didStartNavigation_tracks_custom_login Sample.utils Sample.manager 1
                    "https://evil.example.org/" Sample.loggingIn)).
    right. exists Sample.server. split; reflexivity.
  - apply (proj1 (proj2 (didStartNavigation_tracks_custom_login Sample.utils Sample.manager 1
                           "https://team.example.com/oauth/gitlab/login" Sample.loggingIn)
                    Sample.server true eq_refl eq_refl eq_refl)).
    reflexivity.
  - apply (proj2 (proj2 (didStartNavigation_tracks_custom_login Sample.utils Sample.manager 1
                           "https://team.example.com/core/channels/town-square"
                           Sample.loggingIn)
                    Sample.server true eq_refl eq_refl eq_refl));
      reflexivity.
Defined.

(** C10, on a registered view and on a view that was never registered. *)
Lemma didStartNavigation_total_only_with_record_witness :
  outcome (generateDidStartNavigation Sample.utils Sample.manager 1
             "https://team.example.com/oauth/gitlab/login" Sample.registered)
  = Normal tt
  /\ outcome (generateDidStartNavigation Sample.utils Sample.manager 1
                "https://team.example.com/oauth/gitlab/login" initial)
     = TypeError.
Proof.
  split.
  - apply (proj1 (didStartNavigation_total_only_with_record Sample.utils Sample.manager 1
                    "https://team.example.com/oauth/gitlab/login" Sample.registered)).
    exists {| inProgress := false |}. reflexivity.
  - apply (proj1 (proj2 (didStartNavigation_total_only_with_record Sample.utils
                           Sample.manager 1
                           "https://team.example.com/oauth/gitlab/login" initial))
             Sample.server); reflexivity.
Defined.

(** C3, on the admin console of the view's own server. *)
Lemma newWindow_admin_console_is_denied_witness :
  let r := generateNewWindowListener Sample.utils Sample.manager (Sample.showing "")
             Sample.scheme Sample.userAgent 1 None
             "https://team.example.com/admin_console/x" Sample.registered in
  outcome r = Normal Deny
  /\ after r = Sample.registered
  /\ existsb opensExternal (trace r) = false
  /\ existsb createsWindow (trace r) = false
  /\ existsb loadsURL (trace r) = false.
Proof.
  apply (newWindow_admin_console_is_denied Sample.utils Sample.manager (Sample.showing "")
           Sample.scheme Sample.userAgent 1 None
           "https://team.example.com/admin_console/x"
           (mkURL "https:" "team.example.com" "/admin_console/x")
           Sample.server Sample.registered);
    try reflexivity.
  right. reflexivity.
Defined.

(** C4, on a string that is no URL and on an HTTPS URL with a space. *)
Lemma newWindow_malformed_url_witness :
  generateNewWindowListener Sample.utils Sample.manager (Sample.showing "")
    Sample.scheme Sample.userAgent 1 None "not a url" Sample.registered
  = mkRun (Normal Deny) Sample.registered
      [ELog Debug "webContentEvents.new-window"; ELog Warn "Ignoring non-url not a url"]
  /\ generateNewWindowListener Sample.utils Sample.manager (Sample.showing "")
       Sample.scheme Sample.userAgent 1 None "https://team.example.com/a b"
       Sample.registered
     = mkRun (Normal Deny) Sample.registered
         [ELog Debug "webContentEvents.new-window";
          EOpenExternal "https://team.example.com/a b"].
Proof.
  split.
  - apply (proj1 (newWindow_malformed_url Sample.utils Sample.manager (Sample.showing "")
                    Sample.scheme Sample.userAgent 1 None "not a url" Sample.registered)).
    reflexivity.
  - apply (proj2 (newWindow_malformed_url Sample.utils Sample.manager (Sample.showing "")
                    Sample.scheme Sample.userAgent 1 None "https://team.example.com/a b"
                    Sample.registered)
             (mkURL "https:" "team.example.com" "/a b")); reflexivity.
Defined.

(** C4 as stated fails twice: the parser returns no result for the first
    request, and the second fails the validity check; the external browser
    is opened for neither. *)
Lemma newWindow_malformed_url_is_not_opened_externally :
  let r := generateNewWindowListener Sample.utils Sample.manager (Sample.showing "")
             Sample.scheme Sample.userAgent 1 None "not a url" Sample.registered in
  let r' := generateNewWindowListener Sample.utils Sample.manager (Sample.showing "")
              Sample.scheme Sample.userAgent 1 None "ftp://files.example.org/a b"
              Sample.registered in
  (parseURL Sample.utils "not a url" = None
   /\ existsb opensExternal (trace r) = false)
  /\ (isValidURI Sample.utils "ftp://files.example.org/a b" = false
      /\ existsb opensExternal (trace r') = false).
Proof. repeat split; reflexivity. Qed.

(** C5, on an FTP URL and on a devtools URL. *)
Lemma newWindow_other_protocol_witness :
  (let r := generateNewWindowListener Sample.utils Sample.manager (Sample.showing "")
              Sample.scheme Sample.userAgent 1 None "ftp://files.example.org/report.pdf"
              Sample.registered in
   outcome r = Normal Deny
   /\ trace r = [ELog Debug "webContentEvents.new-window";
                 EHandleDialogEvent "ftp:" "ftp://files.example.org/report.pdf"])
  /\ (let r := generateNewWindowListener Sample.utils Sample.manager (Sample.showing "")
                 Sample.scheme Sample.userAgent 1 None
                 "devtools://devtools/bundled/inspector.html" Sample.registered in
      after r = Sample.registered
      /\ existsb createsWindow (trace r) = false
      /\ existsb loadsURL (trace r) = false).
Proof.
  split.
  - apply (newWindow_other_protocol Sample.utils Sample.manager (Sample.showing "")
             Sample.scheme Sample.userAgent 1 None "ftp://files.example.org/report.pdf"
             (mkURL "ftp:" "files.example.org" "/report.pdf") Sample.registered);
      reflexivity.
  - pose proof (newWindow_other_protocol Sample.utils Sample.manager (Sample.showing "")
                  Sample.scheme Sample.userAgent 1 None
                  "devtools://devtools/bundled/inspector.html"
                  (mkURL "devtools:" "devtools" "/bundled/inspector.html")
                  Sample.registered eq_refl eq_refl) as (H1 & H2 & H3 & _).
    exact (conj H1 (conj H2 H3)).
Defined.

(** C5 as stated fails: the protocol of a devtools URL is none of the
    three, and the request is allowed with no dialog. *)
Lemma newWindow_devtools_is_allowed_without_dialog :
  let url := "devtools://devtools/bundled/inspector.html" in
  let r := generateNewWindowListener Sample.utils Sample.manager (Sample.showing "")
             Sample.scheme Sample.userAgent 1 None url Sample.registered in
  (exists u, parseURL Sample.utils url = Some u /\ webProtocol Sample.scheme u = false)
  /\ outcome r = Normal Allow
  /\ existsb asksProtocolDialog (trace r) = false.
Proof.
  split; [|split; reflexivity].
  exists (mkURL "devtools:" "devtools" "/bundled/inspector.html"). split; reflexivity.
Qed.

(** C6, on a second request for the page the popup already shows. *)
Lemma newWindow_popup_already_there_witness :
  let r := generateNewWindowListener Sample.utils Sample.manager
             (Sample.showing Sample.pluginURL) Sample.scheme Sample.userAgent
             1 None Sample.pluginURL Sample.withPopup in
  after r = Sample.withPopup
  /\ existsb createsWindow (trace r) = false
  /\ existsb loadsURL (trace r) = false
  /\ outcome r = Normal Deny.
Proof.
  pose proof (newWindow_popup_already_there Sample.utils Sample.manager
                (Sample.showing Sample.pluginURL) Sample.scheme Sample.userAgent
                1 None Sample.pluginURL Sample.withPopup eq_refl) as (H1 & H2 & H3 & H4 & _).
  split; [exact H1|]. split; [exact H2|]. split; [exact H3|].
  apply H4. intros u Hu. injection Hu as <-. reflexivity.
Defined.

(** C6 as stated fails: the popup shows the requested URL, and the request,
    coming from a view for which no server origin is resolved, is sent to
    the external browser. *)
Lemma newWindow_popup_already_there_still_opens_externally :
  let r := generateNewWindowListener Sample.utils Sample.manager
             (Sample.showing Sample.pluginURL) Sample.scheme Sample.userAgent
             2 None Sample.pluginURL Sample.withPopup in
  popupShows (Sample.showing Sample.pluginURL) Sample.withPopup Sample.pluginURL = true
  /\ existsb opensExternal (trace r) = true.
Proof. split; reflexivity. Qed.

(** C7, on a plugin URL with no popup yet, and on a managed resource. *)
Lemma newWindow_popup_user_agent_witness :
  (let r := generateNewWindowListener Sample.utils Sample.manager (Sample.showing "")
              Sample.scheme Sample.userAgent 1 None Sample.pluginURL Sample.registered in
   outcome r = Normal Deny
   /\ exists p, popupWindow (after r) = Some p
        /\ filter (fun e => loadsURL e) (trace r)
           = [ELoadURL p Sample.pluginURL (Some Sample.userAgent)])
  /\ (let r := generateNewWindowListener Sample.utils Sample.manager (Sample.showing "")
                 Sample.scheme Sample.userAgent 1 None
                 "https://team.example.com/trusted/report" Sample.registered in
      outcome r = Normal Deny
      /\ exists p, popupWindow (after r) = Some p
           /\ filter (fun e => loadsURL e) (trace r)
              = [ELoadURL p "https://team.example.com/trusted/report" None]).
Proof.
  split.
  - apply (proj2 (newWindow_popup_user_agent Sample.utils Sample.manager (Sample.showing "")
                    Sample.scheme Sample.userAgent 1 None Sample.pluginURL
                    (mkURL "https:" "plugins.example.com" "/oauth/start")
                    Sample.server Sample.registered
                    (conj eq_refl (conj eq_refl (conj eq_refl
                       (conj eq_refl (conj eq_refl eq_refl)))))
                    eq_refl eq_refl eq_refl)); reflexivity.
  - apply (proj1 (newWindow_popup_user_agent Sample.utils Sample.manager (Sample.showing "")
                    Sample.scheme Sample.userAgent 1 None
                    "https://team.example.com/trusted/report"
                    (mkURL "https:" "team.example.com" "/trusted/report")
                    Sample.server Sample.registered
                    (conj eq_refl (conj eq_refl (conj eq_refl
                       (conj eq_refl (conj eq_refl eq_refl)))))
                    eq_refl eq_refl eq_refl)); reflexivity.
Defined.

(** C9, on a run: a registration and two requests for popup pages, after
    which the popup closes. *)
Lemma at_most_one_popup_window_witness :
  let events :=
    [(Sample.host "", Register 1);
     (Sample.host "", WindowOpen 1 None Sample.pluginURL);
     (Sample.host Sample.pluginURL,
      WindowOpen 1 None "https://team.example.com/trusted/report")] in
  popupWindow (runEvents events initial) = Some 1
  /\ (size (windows (runEvents events initial)) <= 1)%nat
  /\ popupWindow (step (runEvents events initial) (Sample.host "", Closed 1)) = None.
Proof.
  intros events.
  destruct at_most_one_popup_window as (_ & Hclosed & Hsize).
  split; [reflexivity|]. split.
  - apply Hsize.
  - apply (proj2 (Hclosed events (Sample.host "") (Closed 1) 1 eq_refl)). reflexivity.
Defined.

(** * Further properties of the navigation interceptor *)

Section WillNavigateMore.

Variable urlUtils : UrlUtils.
Variable windowManager : WindowManager.
Variable electron : Electron.

Abbreviation rule1 := (teamAdminOrPopupRule urlUtils windowManager electron).
Abbreviation rule2 := (channelExportRule urlUtils windowManager).
Abbreviation rule3 := (customLoginRule urlUtils windowManager).

(** When one of rules 1 to 3 matches the handler returns at once, whether
    the destination parses or not. *)
Lemma willNavigate_early sender url w :
  rule1 w sender url || rule2 sender url || rule3 sender url = true ->
  generateWillNavigate urlUtils windowManager electron sender url w
  = mkRun (Normal tt) w [ELog Debug "webContentEvents.will-navigate"].
Proof.
  unfold teamAdminOrPopupRule, channelExportRule, customLoginRule. intros H.
  unfold generateWillNavigate. unfold_monad.
  destruct (withServer _ (fun s => _ || _ || _)); [reflexivity|].
  destruct (withServer _ (fun s => isChannelExportUrl _ _ _)); [reflexivity|].
  destruct (withServer _ (fun s => isCustomLoginURL _ _ _)); [reflexivity|].
  discriminate.
Qed.

(** X1.  For a destination that parses, the handler returns with the state
    unchanged; it calls [preventDefault] exactly when no allow rule
    matches, and asks for the cookie flush exactly when the login-in-progress
    rule is the first one to match. *)
Theorem willNavigate_decision sender url w u :
  parseURL urlUtils url = Some u ->
  let r := generateWillNavigate urlUtils windowManager electron sender url w in
  outcome r = Normal tt
  /\ after r = w
  /\ existsb preventsDefault (trace r)
     = noAllowRule urlUtils windowManager electron w sender url
  /\ existsb flushesCookies (trace r)
     = noEarlierRule urlUtils windowManager electron w sender url
       && loginInProgressRule w sender.
Proof.
  intros Hu r. subst r. rewrite (willNavigate_parsed _ _ _ _ _ _ u Hu).
  unfold noAllowRule.
  destruct (noEarlierRule _ _ _ _ _ _), (loginInProgressRule w sender),
    (callsPopOutRule _ _ _ _); cbn; auto.
Qed.

(** X2.  A [mailto:] destination is let through without a cookie flush,
    whatever the view, its server origin and its login state. *)
Theorem willNavigate_mailto_passes sender url w u :
  parseURL urlUtils url = Some u ->
  protocol u = "mailto:" ->
  let r := generateWillNavigate urlUtils windowManager electron sender url w in
  outcome r = Normal tt
  /\ trace r = [ELog Debug "webContentEvents.will-navigate"].
Proof.
  intros Hu Hmail r. subst r. rewrite (willNavigate_parsed _ _ _ _ _ _ u Hu).
  unfold noAllowRule, noEarlierRule, mailtoRule. rewrite Hu, Hmail, String.eqb_refl.
  cbn [negb]. rewrite !andb_false_r. cbn. auto.
Qed.

(** X3.  The handler throws exactly when the destination does not parse and
    none of rules 1 to 3 matches; it then has changed nothing and called
    neither [preventDefault] nor the cookie flush. *)
Theorem willNavigate_throws_exactly_on_unparsed sender url w :
  let r := generateWillNavigate urlUtils windowManager electron sender url w in
  (outcome r = TypeError <->
   parseURL urlUtils url = None
   /\ rule1 w sender url = false /\ rule2 sender url = false /\ rule3 sender url = false)
  /\ (outcome r = TypeError ->
      after r = w /\ trace r = [ELog Debug "webContentEvents.will-navigate"]).
Proof.
  intros r. subst r.
  destruct (rule1 w sender url || rule2 sender url || rule3 sender url) eqn:Hearly.
  - rewrite (willNavigate_early _ _ _ Hearly). cbn. split; [|discriminate].
    split; [discriminate|]. intros (_ & H1 & H2 & H3).
    rewrite H1, H2, H3 in Hearly. discriminate.
  - apply orb_false_elim in Hearly as [Hearly H3].
    apply orb_false_elim in Hearly as [H1 H2].
    destruct (parseURL urlUtils url) as [u|] eqn:Hu.
    + rewrite (willNavigate_parsed _ _ _ _ _ _ u Hu). cbn. split; [|discriminate].
      split; [discriminate|]. intros (H & _). discriminate.
    + rewrite (willNavigate_unparsed _ _ _ _ _ _ Hu H1 H2 H3). cbn.
      split; [split; auto|auto].
Qed.

(** X4.  With no server origin for the view, only the [mailto:] rule and the
    login-in-progress rule can let a destination that parses through: being
    the trusted popup or the pop-out of a call does not count. *)
Theorem willNavigate_without_server_origin sender url w u :
  getServerURLFromWebContentsId windowManager sender = None ->
  parseURL urlUtils url = Some u ->
  let r := generateWillNavigate urlUtils windowManager electron sender url w in
  existsb preventsDefault (trace r)
  = negb (String.eqb (protocol u) "mailto:") && negb (inProgressOrUndefined w sender).
Proof.
  intros Hs Hu r. subst r.
  destruct (willNavigate_decision sender url w u Hu) as (_ & _ & -> & _).
  unfold noAllowRule, noEarlierRule, teamAdminOrPopupRule, channelExportRule,
    customLoginRule, callsPopOutRule, mailtoRule, loginInProgressRule.
  rewrite Hs, Hu. cbn [withServer negb andb]. rewrite andb_true_r. reflexivity.
Qed.

(** X5.  A navigation inside the shared popup, for contents that resolve to
    a server, is let through whatever the destination, even one that does
    not parse. *)
Theorem willNavigate_inside_popup sender url w s p :
  getServerURLFromWebContentsId windowManager sender = Some s ->
  popupWindow w = Some p ->
  fromWebContents electron sender = Some p ->
  generateWillNavigate urlUtils windowManager electron sender url w
  = mkRun (Normal tt) w [ELog Debug "webContentEvents.will-navigate"].
Proof.
  intros Hs Hp Hown. apply willNavigate_rule1.
  unfold teamAdminOrPopupRule, isTrustedPopupWindow.
  rewrite Hs, Hp, Hown. cbn [withServer]. rewrite Z.eqb_refl, !orb_true_r. reflexivity.
Qed.

(** X6.  When no earlier rule matches and no login is in progress, a
    destination that parses is let through exactly when the view has a
    server origin, a call widget with a non-empty call id exists and the
    destination is the pop-out URL of that call. *)
Theorem willNavigate_calls_pop_out sender url w u :
  parseURL urlUtils url = Some u ->
  noEarlierRule urlUtils windowManager electron w sender url = true ->
  inProgressOrUndefined w sender = false ->
  let r := generateWillNavigate urlUtils windowManager electron sender url w in
  existsb preventsDefault (trace r) = false <->
  exists s c,
    getServerURLFromWebContentsId windowManager sender = Some s
    /\ callsWidgetWindow windowManager = Some c
    /\ c <> ""
    /\ isCallsPopOutURL urlUtils s (Some u) c = true.
Proof.
  intros Hu Hearly Hin r. subst r.
  destruct (willNavigate_decision sender url w u Hu) as (_ & _ & -> & _).
  unfold noAllowRule, loginInProgressRule. rewrite Hearly, Hin. cbn [andb negb].
  unfold callsPopOutRule, truthyCallID. rewrite Hu.
  destruct (getServerURLFromWebContentsId windowManager sender) as [s|]; cbn [withServer].
  2:{ split; [discriminate|]. intros (s & c & H & _). discriminate. }
  destruct (callsWidgetWindow windowManager) as [c|].
  2:{ split; [discriminate|]. intros (s' & c & _ & H & _). discriminate. }
  destruct (String.eqb_spec c "") as [->|Hne].
  { split; [discriminate|]. intros (s' & c & _ & H & Hc & _).
    injection H as <-. congruence. }
  rewrite negb_false_iff. split.
  - intros H. exists s, c. auto.
  - intros (s' & c' & Hs' & Hc' & _ & H). injection Hs' as <-. injection Hc' as <-.
    exact H.
Qed.

End WillNavigateMore.

(** * Further properties of the login-flow tracker *)

Lemma set_customLogins_same id cl w :
  customLogins w !! id = Some cl ->
  set_customLogins <[id := cl]> w = w.
Proof.
  intros H. destruct w as [m l p ws n]. unfold set_customLogins. cbn in *.
  rewrite (insert_id m id cl H). reflexivity.
Qed.

Lemma set_customLogins_twice id cl cl' w :
  set_customLogins <[id := cl']> (set_customLogins <[id := cl]> w)
  = set_customLogins <[id := cl']> w.
Proof.
  destruct w as [m l p ws n]. unfold set_customLogins. cbn.
  rewrite insert_insert_eq. reflexivity.
Qed.

Section DidStartNavigationMore.

Variable urlUtils : UrlUtils.
Variable windowManager : WindowManager.

(** The state after the tracker has run, in all cases. *)
Lemma didStartNavigation_after sender url w :
  after (generateDidStartNavigation urlUtils windowManager sender url w)
  = match getServerURLFromWebContentsId windowManager sender, customLogins w !! sender with
    | Some s, Some cl =>
        if negb (isTrustedURL urlUtils (parseURL urlUtils url) s) then w
        else if isCustomLoginURL urlUtils (parseURL urlUtils url) s
        then set_customLogins <[sender := {| inProgress := true |}]> w
        else if inProgress cl && isInternalURL urlUtils s (parseURL urlUtils url)
        then set_customLogins <[sender := {| inProgress := false |}]> w
        else w
    | _, _ => w
    end.
Proof.
  destruct (getServerURLFromWebContentsId windowManager sender) as [s|] eqn:Hs.
  2:{ rewrite didStartNavigation_ignored; [reflexivity|].
      unfold trustedFor. rewrite Hs. reflexivity. }
  destruct (isTrustedURL urlUtils (parseURL urlUtils url) s) eqn:Ht.
  2:{ rewrite didStartNavigation_ignored.
      - destruct (customLogins w !! sender); reflexivity.
      - unfold trustedFor. rewrite Hs. exact Ht. }
  destruct (customLogins w !! sender) as [cl|] eqn:Hcl.
  - rewrite (didStartNavigation_with_record _ _ _ _ _ cl s Hcl Hs Ht). reflexivity.
  - rewrite (didStartNavigation_without_record _ _ _ _ _ s Hcl Hs Ht). reflexivity.
Qed.

(** X7.  The tracker changes nothing but the custom-login record of the
    view the event comes from: the records of the other views, the listener
    table, the popup reference and the open windows stay as they are, and no
    record is ever removed. *)
Theorem didStartNavigation_touches_own_record_only sender url w :
  let w' := after (generateDidStartNavigation urlUtils windowManager sender url w) in
  listeners w' = listeners w
  /\ popupWindow w' = popupWindow w
  /\ windows w' = windows w
  /\ (forall id, id <> sender -> customLogins w' !! id = customLogins w !! id)
  /\ (forall id, is_Some (customLogins w !! id) -> is_Some (customLogins w' !! id)).
Proof.
  destruct (didStartNavigation_frame urlUtils windowManager sender url w)
    as (H1 & H2 & H3 & _ & H4 & H5).
  cbv zeta. auto.
Qed.

(** X8.  Seeing the same [did-start-navigation] event twice leaves the state
    the first one left. *)
Theorem didStartNavigation_idempotent sender url w :
  after (generateDidStartNavigation urlUtils windowManager sender url (after (generateDidStartNavigation urlUtils windowManager sender url w)))
  = after (generateDidStartNavigation urlUtils windowManager sender url w).
Proof.
  rewrite (didStartNavigation_after sender url w).
  destruct (getServerURLFromWebContentsId windowManager sender) as [s|] eqn:Hs;
    [|rewrite didStartNavigation_after, Hs; reflexivity].
  destruct (customLogins w !! sender) as [cl|] eqn:Hcl;
    [|rewrite didStartNavigation_after, Hs, Hcl; reflexivity].
  destruct (isTrustedURL urlUtils (parseURL urlUtils url) s) eqn:Ht; cbn [negb];
    [|rewrite didStartNavigation_after, Hs, Hcl, Ht; reflexivity].
  destruct (isCustomLoginURL urlUtils (parseURL urlUtils url) s) eqn:Hc.
  - rewrite didStartNavigation_after, Hs. cbn [customLogins set_customLogins].
    rewrite lookup_insert_eq, Ht, Hc. cbn [negb].
    apply set_customLogins_twice.
  - destruct (inProgress cl && isInternalURL urlUtils s (parseURL urlUtils url)) eqn:Hi.
    + rewrite didStartNavigation_after, Hs. cbn [customLogins set_customLogins].
      rewrite lookup_insert_eq, Ht, Hc. cbn. reflexivity.
    + rewrite didStartNavigation_after, Hs, Hcl, Ht, Hc, Hi. reflexivity.
Qed.

(** X9.  A login round trip restores the state: for a view whose flag is
    down, the start of a navigation to the custom-login URL followed by the
    start of a navigation to an internal URL that is no custom-login URL
    gives back the state before the two. *)
Theorem didStartNavigation_login_round_trip sender login back w s :
  getServerURLFromWebContentsId windowManager sender = Some s ->
  flag w sender = Some false ->
  isTrustedURL urlUtils (parseURL urlUtils login) s = true ->
  isCustomLoginURL urlUtils (parseURL urlUtils login) s = true ->
  isTrustedURL urlUtils (parseURL urlUtils back) s = true ->
  isCustomLoginURL urlUtils (parseURL urlUtils back) s = false ->
  isInternalURL urlUtils s (parseURL urlUtils back) = true ->
  flag (after (generateDidStartNavigation urlUtils windowManager sender login w)) sender = Some true
  /\ after (generateDidStartNavigation urlUtils windowManager sender back (after (generateDidStartNavigation urlUtils windowManager sender login w))) = w.
Proof.
  intros Hs Hflag Ht1 Hc1 Ht2 Hc2 Hi2. unfold flag in Hflag.
  destruct (customLogins w !! sender) as [[b]|] eqn:Hcl; [|discriminate].
  cbn in Hflag. injection Hflag as ->.
  rewrite (didStartNavigation_after sender login w), Hs, Hcl, Ht1, Hc1. cbn [negb].
  split.
  - unfold flag. cbn. rewrite lookup_insert_eq. reflexivity.
  - rewrite didStartNavigation_after, Hs. cbn [customLogins set_customLogins].
    rewrite lookup_insert_eq, Ht2, Hc2, Hi2. cbn [negb inProgress andb].
    rewrite set_customLogins_twice. apply set_customLogins_same. exact Hcl.
Qed.

(** One [did-start-navigation] event takes the flag of its view up only
    for a trusted custom-login URL of the view's server, and down only for a
    trusted internal URL that is no custom-login URL. *)
Theorem didStartNavigation_flag_changes_only_for_cause sender url w :
  let w' := after (generateDidStartNavigation urlUtils windowManager sender url w) in
  (flag w sender = Some false -> flag w' sender = Some true ->
   exists s, getServerURLFromWebContentsId windowManager sender = Some s
     /\ isTrustedURL urlUtils (parseURL urlUtils url) s = true
     /\ isCustomLoginURL urlUtils (parseURL urlUtils url) s = true)
  /\ (flag w sender = Some true -> flag w' sender = Some false ->
      exists s, getServerURLFromWebContentsId windowManager sender = Some s
        /\ isTrustedURL urlUtils (parseURL urlUtils url) s = true
        /\ isCustomLoginURL urlUtils (parseURL urlUtils url) s = false
        /\ isInternalURL urlUtils s (parseURL urlUtils url) = true).
Proof.
  cbv zeta. rewrite didStartNavigation_after. unfold flag.
  destruct (getServerURLFromWebContentsId windowManager sender) as [s|] eqn:Hs;
    [|split; intros H1 H2; rewrite H1 in H2; discriminate].
  destruct (customLogins w !! sender) as [[b]|] eqn:Hcl;
    [|split; intros H1 H2; cbn in H1; discriminate].
  destruct (isTrustedURL urlUtils (parseURL urlUtils url) s) eqn:Ht; cbn [negb];
    [|split; intros H1 H2; rewrite Hcl, H1 in H2; discriminate].
  destruct (isCustomLoginURL urlUtils (parseURL urlUtils url) s) eqn:Hc.
  { split; intros H1 H2; [exists s; auto|].
    cbn [customLogins set_customLogins] in H2. rewrite lookup_insert_eq in H2.
    cbn in H2. discriminate. }
  cbn [inProgress].
  destruct (isInternalURL urlUtils s (parseURL urlUtils url)) eqn:Hi.
  2:{ rewrite andb_false_r. split; intros H1 H2; rewrite Hcl, H1 in H2; discriminate. }
  rewrite andb_true_r. destruct b.
  - split; intros H1 H2; [cbn in H1; discriminate|]. exists s. auto.
  - split; intros H1 H2; [rewrite Hcl in H2; cbn in H2; discriminate|].
    cbn in H1. discriminate.
Qed.

End DidStartNavigationMore.

(** X10.  Over all the events of the class, the flag of a view goes from
    false to true only at a [did-start-navigation] event of that view for a
    trusted custom-login URL of its server, and from true to false only at a
    registration of that view or at a [did-start-navigation] event of that
    view for a trusted internal URL that is no custom-login URL. *)
Theorem flag_changes_only_for_cause h e w id :
  let w' := step w (h, e) in
  (flag w id = Some false -> flag w' id = Some true ->
   exists url s,
     e = DidStartNavigation id url
     /\ getServerURLFromWebContentsId (hostWindowManager h) id = Some s
     /\ isTrustedURL (hostUrlUtils h) (parseURL (hostUrlUtils h) url) s = true
     /\ isCustomLoginURL (hostUrlUtils h) (parseURL (hostUrlUtils h) url) s = true)
  /\ (flag w id = Some true -> flag w' id = Some false ->
      e = Register id
      \/ exists url s,
           e = DidStartNavigation id url
           /\ getServerURLFromWebContentsId (hostWindowManager h) id = Some s
           /\ isTrustedURL (hostUrlUtils h) (parseURL (hostUrlUtils h) url) s = true
           /\ isCustomLoginURL (hostUrlUtils h) (parseURL (hostUrlUtils h) url) s = false
           /\ isInternalURL (hostUrlUtils h) s (parseURL (hostUrlUtils h) url) = true).
Proof.
  cbv zeta.
  assert (Hsame : customLogins (step w (h, e)) !! id = customLogins w !! id ->
            forall b b', b <> b' ->
            flag w id = Some b -> flag (step w (h, e)) id = Some b' -> False).
  { unfold flag. intros -> b b' Hne H1 H2. rewrite H1 in H2. congruence. }
  assert (Hft : false <> true) by discriminate.
  assert (Htf : true <> false) by discriminate.
  destruct e as [sender url|sender url|id' sc url|url|id'|id'|q|q].
  - assert (Hc : customLogins (step w (h, WillNavigate sender url)) !! id
                 = customLogins w !! id).
    { unfold step. cbn [fst snd handle]. rewrite willNavigate_state. reflexivity. }
    split; intros H1 H2;
      [destruct (Hsame Hc _ _ Hft H1 H2)|destruct (Hsame Hc _ _ Htf H1 H2)].
  - destruct (decide (sender = id)) as [->|Hne].
    + destruct (didStartNavigation_flag_changes_only_for_cause
                  (hostUrlUtils h) (hostWindowManager h) id url w) as [Hup Hdown].
      unfold step. cbn [fst snd handle]. split; intros H1 H2.
      * destruct (Hup H1 H2) as (s & Hs). exists url, s. auto.
      * right. destruct (Hdown H1 H2) as (s & Hs). exists url, s. auto.
    + assert (Hc : customLogins (step w (h, DidStartNavigation sender url)) !! id
                   = customLogins w !! id).
      { unfold step. cbn [fst snd handle].
        destruct (didStartNavigation_frame (hostUrlUtils h) (hostWindowManager h)
                    sender url w) as (_ & _ & _ & _ & Hother & _).
        apply Hother. congruence. }
      split; intros H1 H2;
      [destruct (Hsame Hc _ _ Hft H1 H2)|destruct (Hsame Hc _ _ Htf H1 H2)].
  - assert (Hc : customLogins (step w (h, WindowOpen id' sc url)) !! id
                 = customLogins w !! id).
    { unfold step. cbn [fst snd handle]. rewrite after_discard.
      destruct (newWindow_frame (hostUrlUtils h) (hostWindowManager h) (hostElectron h)
                  (hostScheme h) (hostUserAgent h) id' sc url w)
        as (_ & [[-> _]|(_ & -> & _)] & _); reflexivity. }
    split; intros H1 H2;
      [destruct (Hsame Hc _ _ Hft H1 H2)|destruct (Hsame Hc _ _ Htf H1 H2)].
  - assert (Hc : customLogins (step w (h, PopupWindowOpen url)) !! id
                 = customLogins w !! id) by reflexivity.
    split; intros H1 H2;
      [destruct (Hsame Hc _ _ Hft H1 H2)|destruct (Hsame Hc _ _ Htf H1 H2)].
  - destruct (decide (id' = id)) as [->|Hne].
    + split; intros H1 H2; [|left; reflexivity].
      unfold step, flag in H2. cbn [fst snd handle] in H2.
      rewrite addWebContentsEventListeners_run in H2.
      cbn [after set_listeners set_customLogins customLogins] in H2.
      rewrite lookup_insert_eq in H2. discriminate.
    + assert (Hc : customLogins (step w (h, Register id')) !! id = customLogins w !! id).
      { unfold step. cbn [fst snd handle]. rewrite addWebContentsEventListeners_run.
        cbn [after set_listeners set_customLogins customLogins].
        apply lookup_insert_ne. exact Hne. }
      split; intros H1 H2;
      [destruct (Hsame Hc _ _ Hft H1 H2)|destruct (Hsame Hc _ _ Htf H1 H2)].
  - assert (Hc : customLogins (step w (h, Unregister id')) !! id = customLogins w !! id).
    { unfold step. cbn [fst snd handle]. rewrite removeWebContentsListeners_state.
      reflexivity. }
    split; intros H1 H2;
      [destruct (Hsame Hc _ _ Hft H1 H2)|destruct (Hsame Hc _ _ Htf H1 H2)].
  - assert (Hc : customLogins (step w (h, ReadyToShow q)) !! id = customLogins w !! id).
    { unfold step. cbn [fst snd handle].
      destruct (emitReadyToShow_frame q w) as [-> _]. reflexivity. }
    split; intros H1 H2;
      [destruct (Hsame Hc _ _ Hft H1 H2)|destruct (Hsame Hc _ _ Htf H1 H2)].
  - assert (Hc : customLogins (step w (h, Closed q)) !! id = customLogins w !! id).
    { unfold step. cbn [fst snd handle].
      destruct (emitClosed_frame q w) as [-> _]. reflexivity. }
    split; intros H1 H2;
      [destruct (Hsame Hc _ _ Hft H1 H2)|destruct (Hsame Hc _ _ Htf H1 H2)].
Qed.

(** X11.  The tracker arms the interceptor: once a registered view has
    started a navigation to its server's custom-login URL, the interceptor
    cancels no navigation of that view to a destination that parses. *)
Theorem login_in_progress_lets_every_navigation_through
    urlUtils windowManager electron sender login url w s u :
  is_Some (customLogins w !! sender) ->
  getServerURLFromWebContentsId windowManager sender = Some s ->
  isTrustedURL urlUtils (parseURL urlUtils login) s = true ->
  isCustomLoginURL urlUtils (parseURL urlUtils login) s = true ->
  parseURL urlUtils url = Some u ->
  let w' := after (generateDidStartNavigation urlUtils windowManager sender login w) in
  let r := generateWillNavigate urlUtils windowManager electron sender url w' in
  outcome r = Normal tt /\ existsb preventsDefault (trace r) = false.
Proof.
  intros [cl Hcl] Hs Ht Hc Hu w' r. subst r w'.
  rewrite didStartNavigation_after, Hs, Hcl, Ht, Hc. cbn [negb].
  destruct (willNavigate_decision urlUtils windowManager electron sender url
              (set_customLogins <[sender := {| inProgress := true |}]> w) u Hu)
    as (Ho & _ & Hp & _).
  split; [exact Ho|]. rewrite Hp. unfold noAllowRule, loginInProgressRule,
    inProgressOrUndefined. cbn [customLogins set_customLogins].
  rewrite lookup_insert_eq. cbn. rewrite andb_false_r. reflexivity.
Qed.

(** * Further properties of the new-window policy *)

Section NewWindowMore.

Variable urlUtils : UrlUtils.
Variable windowManager : WindowManager.
Variable electron : Electron.
Variable scheme : option string.
Variable composeUserAgent : string.

Abbreviation debugLine := (ELog Debug "webContentEvents.new-window").

(** The whole policy as one table. *)
Lemma newWindow_table webContentsId spellcheck url w :
  generateNewWindowListener urlUtils windowManager electron scheme composeUserAgent
    webContentsId spellcheck url w
  = match parseURL urlUtils url with
    | None => mkRun (Normal Deny) w [debugLine; ELog Warn ("Ignoring non-url " ++ url)]
    | Some u =>
        if String.eqb (protocol u) "devtools:" then mkRun (Normal Allow) w [debugLine]
        else if negb (webProtocol scheme u)
        then mkRun (Normal Deny) w [debugLine; EHandleDialogEvent (protocol u) url]
        else if negb (isValidURI urlUtils url)
        then mkRun (Normal Deny) w [debugLine; EOpenExternal url]
        else
          match getServerURLFromWebContentsId windowManager webContentsId with
          | None => mkRun (Normal Deny) w [debugLine; EOpenExternal url]
          | Some s =>
              if externalPath u
              then mkRun (Normal Deny) w [debugLine; EOpenExternal url]
              else if isTeamUrl urlUtils s (Some u) (Some true)
              then mkRun (Normal Deny) w [debugLine; EShowMainWindow u]
              else if isAdminUrl urlUtils s (Some u)
              then mkRun (Normal Deny) w
                     [debugLine;
                      ELog Info (url ++ " is an admin console page, preventing to open a new window")]
              else if popupShows electron w url
              then mkRun (Normal Deny) w
                     [debugLine;
                      ELog Info ("Popup window already open at provided url: " ++ url)]
              else if isManagedResource urlUtils s (Some u)
              then mkRun (Normal Deny) (popupWorld w spellcheck)
                     (debugLine :: popupTrace w spellcheck url None)
              else if isPluginUrl urlUtils s (Some u)
              then mkRun (Normal Deny) (popupWorld w spellcheck)
                     (debugLine :: popupTrace w spellcheck url (Some composeUserAgent))
              else mkRun (Normal Deny) w [debugLine; EOpenExternal url]
          end
    end.
Proof.
  destruct (reachesServerRules_dec urlUtils windowManager scheme webContentsId url)
    as [(u & s & Hr)|Hn].
  - rewrite (newWindow_server_rules _ _ _ _ _ _ _ _ u s w Hr).
    destruct Hr as (-> & -> & -> & -> & -> & ->). reflexivity.
  - rewrite (newWindow_early_rules _ _ _ scheme _ _ _ _ w Hn).
    destruct (parseURL urlUtils url) as [u|] eqn:Hu; [|reflexivity].
    destruct (String.eqb (protocol u) "devtools:") eqn:Hdev; [reflexivity|].
    destruct (webProtocol scheme u) eqn:Hweb; [|reflexivity]. cbn [negb].
    destruct (isValidURI urlUtils url) eqn:Hvalid; [|reflexivity]. cbn [negb].
    destruct (getServerURLFromWebContentsId windowManager webContentsId) as [s|] eqn:Hs;
      [|reflexivity].
    destruct (externalPath u) eqn:Hpath; [reflexivity|].
    exfalso. apply (Hn u s). repeat split; assumption.
Qed.

Ltac table_cases :=
  repeat match goal with
    | |- context [match parseURL ?a ?b with _ => _ end] =>
        destruct (parseURL a b) eqn:?
    | |- context [match getServerURLFromWebContentsId ?a ?b with _ => _ end] =>
        destruct (getServerURLFromWebContentsId a b) eqn:?
    | |- context [if ?c then _ else _] => destruct c eqn:?
    end.

(** X12.  The window-open handler never throws; it answers deny for every
    request but a [devtools:] URL, which it allows with nothing done. *)
Theorem newWindow_allows_only_devtools webContentsId spellcheck url w :
  let r := generateNewWindowListener urlUtils windowManager electron scheme composeUserAgent
    webContentsId spellcheck url w in
  (outcome r = Normal Allow \/ outcome r = Normal Deny)
  /\ (outcome r = Normal Allow <->
      exists u, parseURL urlUtils url = Some u /\ protocol u = "devtools:")
  /\ (outcome r = Normal Allow -> after r = w /\ trace r = [debugLine]).
Proof.
  intros r. subst r. rewrite newWindow_table.
  destruct (parseURL urlUtils url) as [u|] eqn:Hu.
  2:{ cbn. split; [auto|]. split; [|discriminate].
      split; [discriminate|]. intros (u & H & _). discriminate. }
  destruct (String.eqb_spec (protocol u) "devtools:") as [Hdev|Hdev].
  { cbn. split; [auto|]. split; [|auto]. split; [eauto|reflexivity]. }
  assert (Hno : ~ exists u0, Some u = Some u0 /\ protocol u0 = "devtools:").
  { intros (u0 & H & H'). injection H as <-. contradiction. }
  table_cases; cbn; (split; [auto|]); (split; [|discriminate]);
    (split; [discriminate|intros H; destruct (Hno H)]).
Qed.

(** X13.  A window-open request sets off at most one action: the protocol
    dialog, the external browser, the main window or one load into the popup;
    and a window is built only to be loaded. *)
Theorem newWindow_at_most_one_action webContentsId spellcheck url w :
  let r := generateNewWindowListener urlUtils windowManager electron scheme composeUserAgent
    webContentsId spellcheck url w in
  (length (List.filter isAction (trace r)) <= 1)%nat
  /\ (existsb createsWindow (trace r) = true -> existsb loadsURL (trace r) = true).
Proof.
  intros r. subst r. rewrite newWindow_table. unfold popupTrace.
  table_cases; try destruct (popupWindow w); cbn; split;
    solve [lia | discriminate | reflexivity].
Qed.

(** X14.  The external browser is opened exactly for a URL that parses, is
    no devtools URL and has a web protocol, when the URL is invalid, or the
    view has no server origin, or the path is a public-file, image-proxy or
    help path, or no later rule takes the URL (it is not a team URL, not the
    admin console, not what the popup shows, no managed resource and no
    plugin URL).  The request is then denied and the state is unchanged. *)
Theorem newWindow_opens_externally_exactly_when webContentsId spellcheck url w :
  let r := generateNewWindowListener urlUtils windowManager electron scheme composeUserAgent
    webContentsId spellcheck url w in
  (existsb opensExternal (trace r) = true <->
   exists u,
     parseURL urlUtils url = Some u
     /\ String.eqb (protocol u) "devtools:" = false
     /\ webProtocol scheme u = true
     /\ (isValidURI urlUtils url = false
         \/ getServerURLFromWebContentsId windowManager webContentsId = None
         \/ exists s,
              getServerURLFromWebContentsId windowManager webContentsId = Some s
              /\ (externalPath u = true
                  \/ (isTeamUrl urlUtils s (Some u) (Some true) = false
                      /\ isAdminUrl urlUtils s (Some u) = false
                      /\ popupShows electron w url = false
                      /\ isManagedResource urlUtils s (Some u) = false
                      /\ isPluginUrl urlUtils s (Some u) = false))))
  /\ (existsb opensExternal (trace r) = true ->
      r = mkRun (Normal Deny) w [debugLine; EOpenExternal url]).
Proof.
  intros r. subst r. rewrite newWindow_table. unfold popupTrace.
  destruct (parseURL urlUtils url) as [u|] eqn:Hu.
  2:{ cbn. split; [|discriminate]. split; [discriminate|].
      intros (u & H & _). discriminate. }
  destruct (String.eqb (protocol u) "devtools:") eqn:Hdev.
  { cbn. split; [|discriminate]. split; [discriminate|].
    intros (u0 & H & H' & _). injection H as <-. congruence. }
  destruct (webProtocol scheme u) eqn:Hweb; cbn [negb].
  2:{ cbn. split; [|discriminate]. split; [discriminate|].
      intros (u0 & H & _ & H' & _). injection H as <-. congruence. }
  destruct (isValidURI urlUtils url) eqn:Hvalid; cbn [negb].
  2:{ cbn. split; [|reflexivity]. split; [|reflexivity].
      intros _. exists u. repeat split; auto. }
  destruct (getServerURLFromWebContentsId windowManager webContentsId) as [s|] eqn:Hs.
  2:{ cbn. split; [|reflexivity]. split; [|reflexivity].
      intros _. exists u. repeat split; auto. }
  assert (Hinv : forall P : Prop,
    (externalPath u = true
     \/ (isTeamUrl urlUtils s (Some u) (Some true) = false
         /\ isAdminUrl urlUtils s (Some u) = false
         /\ popupShows electron w url = false
         /\ isManagedResource urlUtils s (Some u) = false
         /\ isPluginUrl urlUtils s (Some u) = false) -> P) ->
    (exists u0, Some u = Some u0
       /\ String.eqb (protocol u0) "devtools:" = false
       /\ webProtocol scheme u0 = true
       /\ (true = false \/ Some s = None
           \/ exists s0, Some s = Some s0
                /\ (externalPath u0 = true
                    \/ (isTeamUrl urlUtils s0 (Some u0) (Some true) = false
                        /\ isAdminUrl urlUtils s0 (Some u0) = false
                        /\ popupShows electron w url = false
                        /\ isManagedResource urlUtils s0 (Some u0) = false
                        /\ isPluginUrl urlUtils s0 (Some u0) = false)))) -> P).
  { intros P HP (u0 & H & _ & _ & [H'|[H'|(s0 & H' & Hor)]]); try discriminate.
    injection H as <-. injection H' as <-. exact (HP Hor). }
  destruct (externalPath u) eqn:Hpath.
  { cbn. split; [|reflexivity]. split; [|reflexivity].
    intros _. exists u. repeat split; auto. right. right. exists s. auto. }
  destruct (isTeamUrl urlUtils s (Some u) (Some true)) eqn:Hteam.
  { cbn. split; [|discriminate]. split; [discriminate|].
    apply Hinv. intros [H|(H & _)]; discriminate. }
  destruct (isAdminUrl urlUtils s (Some u)) eqn:Hadmin.
  { cbn. split; [|discriminate]. split; [discriminate|].
    apply Hinv. intros [H|(_ & H & _)]; discriminate. }
  destruct (popupShows electron w url) eqn:Hshow.
  { cbn. split; [|discriminate]. split; [discriminate|].
    apply Hinv. intros [H|(_ & _ & H & _)]; discriminate. }
  destruct (isManagedResource urlUtils s (Some u)) eqn:Hman.
  { destruct (popupWindow w); cbn; (split; [|discriminate]); (split; [discriminate|]);
      apply Hinv; intros [H|(_ & _ & _ & H & _)]; discriminate. }
  destruct (isPluginUrl urlUtils s (Some u)) eqn:Hplug.
  { destruct (popupWindow w); cbn; (split; [|discriminate]); (split; [discriminate|]);
      apply Hinv; intros [H|(_ & _ & _ & _ & H)]; discriminate. }
  cbn. split; [|reflexivity]. split; [|reflexivity].
  intros _. exists u. repeat split; auto. right. right. exists s. split; [reflexivity|].
  right. auto.
Qed.

(** X15.  The main window is asked to show a URL exactly when the request
    reaches the server rules and the URL is a team URL of the view's server;
    the request is then denied, and nothing else is done. *)
Theorem newWindow_team_url_goes_to_main_window webContentsId spellcheck url w :
  let r := generateNewWindowListener urlUtils windowManager electron scheme composeUserAgent
    webContentsId spellcheck url w in
  (existsb showsMainWindow (trace r) = true <->
   exists u s,
     reachesServerRules urlUtils windowManager scheme webContentsId url u s
     /\ isTeamUrl urlUtils s (Some u) (Some true) = true)
  /\ (forall u s,
      reachesServerRules urlUtils windowManager scheme webContentsId url u s ->
      isTeamUrl urlUtils s (Some u) (Some true) = true ->
      r = mkRun (Normal Deny) w [debugLine; EShowMainWindow u]).
Proof.
  intros r. subst r. split.
  - destruct (reachesServerRules_dec urlUtils windowManager scheme webContentsId url)
      as [(u & s & Hr)|Hn].
    + rewrite (newWindow_server_rules _ _ _ _ _ _ _ _ u s w Hr).
      assert (Hsame : forall u0 s0,
                reachesServerRules urlUtils windowManager scheme webContentsId url u0 s0 ->
                u0 = u /\ s0 = s).
      { intros u0 s0 (H1 & _ & _ & _ & H2 & _). destruct Hr as (H1' & _ & _ & _ & H2' & _).
        split; congruence. }
      unfold popupTrace.
      destruct (isTeamUrl urlUtils s (Some u) (Some true)) eqn:Hteam.
      { cbn. split; [eauto|reflexivity]. }
      table_cases; try destruct (popupWindow w); cbn; (split; [discriminate|]);
        intros (u0 & s0 & Hr0 & H0); destruct (Hsame u0 s0 Hr0) as [-> ->]; congruence.
    + rewrite (newWindow_early_rules _ _ _ scheme _ _ _ _ w Hn).
      table_cases; cbn; (split; [discriminate|]);
        intros (u0 & s0 & Hr0 & _); destruct (Hn u0 s0 Hr0).
  - intros u s Hr Hteam.
    rewrite (newWindow_server_rules _ _ _ _ _ _ _ _ u s w Hr), Hteam. reflexivity.
Qed.

(** X16.  On its first use the popup is built as a fresh window: it gets the
    caller's spellcheck setting, on by default, a window-open handler that
    denies, one [ready-to-show] and one [closed] listener; the reference is
    set to it, it is loaded, and the other windows and the records are left
    alone. *)
Theorem newWindow_builds_popup_on_first_use webContentsId spellcheck url u s w :
  reachesServerRules urlUtils windowManager scheme webContentsId url u s ->
  isTeamUrl urlUtils s (Some u) (Some true) = false ->
  isAdminUrl urlUtils s (Some u) = false ->
  isPluginUrl urlUtils s (Some u) || isManagedResource urlUtils s (Some u) = true ->
  popupWindow w = None ->
  let r := generateNewWindowListener urlUtils windowManager electron scheme composeUserAgent
    webContentsId spellcheck url w in
  let p := nextWindow w in
  popupWindow (after r) = Some p
  /\ windows (after r) !! p
     = Some {| spellcheckPref := match spellcheck with Some b => b | None => true end;
               denyAllOpenHandler := true;
               onceReadyToShow := [ShowPopup];
               onceClosed := [ClearPopup] |}
  /\ (forall q, q <> p -> windows (after r) !! q = windows w !! q)
  /\ customLogins (after r) = customLogins w
  /\ listeners (after r) = listeners w
  /\ exists ua,
       trace r = [debugLine;
                  ENewBrowserWindow p (match spellcheck with Some b => b | None => true end);
                  ELoadURL p url ua;
                  EContextMenuReload p].
Proof.
  intros Hr Hteam Hadmin Hqual Hnone r p. subst r p.
  rewrite (newWindow_server_rules _ _ _ _ _ _ _ _ u s w Hr), Hteam, Hadmin.
  unfold popupShows, popupWorld, popupTrace. rewrite Hnone.
  assert (Hw : forall ua,
    let r := mkRun (Normal Deny) (withNewPopup spellcheck w)
               (debugLine ::
                [ENewBrowserWindow (nextWindow w)
                   (spellcheckPref (popupBrowserWindow spellcheck));
                 ELoadURL (nextWindow w) url ua;
                 EContextMenuReload (nextWindow w)]) in
    popupWindow (after r) = Some (nextWindow w)
    /\ windows (after r) !! nextWindow w
       = Some {| spellcheckPref := match spellcheck with Some b => b | None => true end;
                 denyAllOpenHandler := true;
                 onceReadyToShow := [ShowPopup];
                 onceClosed := [ClearPopup] |}
    /\ (forall q, q <> nextWindow w -> windows (after r) !! q = windows w !! q)
    /\ customLogins (after r) = customLogins w
    /\ listeners (after r) = listeners w
    /\ exists ua0,
         trace r = [debugLine;
                    ENewBrowserWindow (nextWindow w)
                      (match spellcheck with Some b => b | None => true end);
                    ELoadURL (nextWindow w) url ua0;
                    EContextMenuReload (nextWindow w)]).
  { intros ua. cbn. split; [reflexivity|]. split.
    - rewrite lookup_insert_eq. destruct spellcheck; reflexivity.
    - split; [intros q Hq; rewrite lookup_insert_ne by congruence; reflexivity|].
      split; [reflexivity|]. split; [reflexivity|].
      exists ua. destruct spellcheck; reflexivity. }
  destruct (isManagedResource urlUtils s (Some u)); [apply Hw|].
  rewrite orb_false_r in Hqual. rewrite Hqual. apply Hw.
Qed.

(** X17.  While the popup is open and shows another page, a request for a
    plugin URL or a managed resource builds nothing: it loads the URL into
    the window that is already there and leaves the state unchanged. *)
Theorem newWindow_navigates_the_open_popup webContentsId spellcheck url u s w p :
  reachesServerRules urlUtils windowManager scheme webContentsId url u s ->
  isTeamUrl urlUtils s (Some u) (Some true) = false ->
  isAdminUrl urlUtils s (Some u) = false ->
  isPluginUrl urlUtils s (Some u) || isManagedResource urlUtils s (Some u) = true ->
  popupWindow w = Some p ->
  getURL electron p <> url ->
  let r := generateNewWindowListener urlUtils windowManager electron scheme composeUserAgent
    webContentsId spellcheck url w in
  outcome r = Normal Deny
  /\ after r = w
  /\ exists ua, trace r = [debugLine; ELoadURL p url ua; EContextMenuReload p].
Proof.
  intros Hr Hteam Hadmin Hqual Hp Hurl r. subst r.
  rewrite (newWindow_server_rules _ _ _ _ _ _ _ _ u s w Hr), Hteam, Hadmin.
  unfold popupShows, popupWorld, popupTrace. rewrite Hp.
  apply String.eqb_neq in Hurl. rewrite Hurl.
  destruct (isManagedResource urlUtils s (Some u)); [cbn; eauto|].
  rewrite orb_false_r in Hqual. rewrite Hqual. cbn. eauto.
Qed.

End NewWindowMore.

(** * Further properties of the popup window and of registration *)

Lemma runCallbacks_windows cs w :
  windows (after (runCallbacks cs w)) = windows w.
Proof.
  revert w. induction cs as [|c cs IH]; intros w; [reflexivity|].
  cbn [runCallbacks]. unfold bind.
  destruct c; cbn [runCallback]; unfold_monad.
  - destruct (popupWindow w); cbn; [apply IH|reflexivity].
  - cbn [after]. apply (IH (set_popupWindow None w)).
Qed.

Lemma emitReadyToShow_windows p w :
  windows (after (emitReadyToShow p w)) = windows w
  \/ windows (after (emitReadyToShow p w)) = alter clearReadyToShow p (windows w).
Proof.
  unfold emitReadyToShow. unfold_monad.
  destruct (windows w !! p) as [bw|]; [|left; reflexivity].
  unfold_monad. right.
  pose proof (runCallbacks_windows (onceReadyToShow bw)
                (set_windows (alter clearReadyToShow p) w)) as H.
  destruct (runCallbacks _ _) as [[]]; exact H.
Qed.

Lemma emitClosed_windows p w :
  windows (after (emitClosed p w)) = windows w
  \/ windows (after (emitClosed p w)) = delete p (windows w).
Proof.
  unfold emitClosed. unfold_monad.
  destruct (windows w !! p) as [bw|]; [|left; reflexivity].
  unfold_monad. right.
  pose proof (runCallbacks_windows (onceClosed bw) (set_windows (delete p) w)) as H.
  destruct (runCallbacks _ _) as [[]]; exact H.
Qed.

Lemma step_allDenyNewWindows h e w :
  allDenyNewWindows w -> allDenyNewWindows (step w (h, e)).
Proof.
  intros Hinv. unfold step. cbn [fst snd].
  destruct e as [sender url|sender url|id sc url|url|id|id|q|q]; cbn [handle].
  - rewrite willNavigate_state. assumption.
  - destruct (didStartNavigation_frame (hostUrlUtils h) (hostWindowManager h) sender url w)
      as (_ & _ & Hwin & _).
    unfold allDenyNewWindows. rewrite Hwin. assumption.
  - rewrite after_discard.
    destruct (newWindow_frame (hostUrlUtils h) (hostWindowManager h) (hostElectron h)
                (hostScheme h) (hostUserAgent h) id sc url w)
      as (_ & [[-> _]|(Hnone & -> & _)] & _); [assumption|].
    intros p bw. cbn [windows withNewPopup].
    destruct (decide (nextWindow w = p)) as [->|Hne].
    + rewrite lookup_insert_eq. intros H. injection H as <-. reflexivity.
    + rewrite lookup_insert_ne by assumption. apply Hinv.
  - cbn. assumption.
  - destruct (addWebContentsEventListeners_record id w) as (_ & _ & _ & Hwin).
    unfold allDenyNewWindows. rewrite Hwin. assumption.
  - rewrite removeWebContentsListeners_state. assumption.
  - intros p bw. destruct (emitReadyToShow_windows q w) as [-> | ->]; [apply Hinv|].
    destruct (decide (q = p)) as [->|Hne].
    + rewrite lookup_alter_eq. destruct (windows w !! p) as [bw0|] eqn:Hbw; [|discriminate].
      cbn. intros H. injection H as <-. cbn. exact (Hinv p bw0 Hbw).
    + rewrite lookup_alter_ne by assumption. apply Hinv.
  - intros p bw. destruct (emitClosed_windows q w) as [-> | ->]; [apply Hinv|].
    destruct (decide (q = p)) as [->|Hne].
    + rewrite lookup_delete_eq. discriminate.
    + rewrite lookup_delete_ne by assumption. apply Hinv.
Qed.

(** X18.  The popup never opens a window of its own: in every state reached
    from the constructor each window the class has built carries the
    deny-all handler, and that handler answers deny, with a warning in the
    log and the state unchanged. *)
Theorem popup_never_opens_windows :
  (forall events, allDenyNewWindows (runEvents events initial))
  /\ (forall url w,
        denyNewWindow url w
        = mkRun (Normal Deny) w
            [ELog Warn ("Prevented popup window to open a new window to " ++ url ++ ".")]).
Proof.
  split; [|reflexivity].
  assert (Hrun : forall events w, allDenyNewWindows w -> allDenyNewWindows (runEvents events w)).
  { induction events as [|[h e] events IH]; intros w Hw; cbn; [assumption|].
    apply IH, step_allDenyNewWindows, Hw. }
  intros events. apply Hrun. intros p bw H. cbn in H. rewrite lookup_empty in H.
  discriminate.
Qed.

(** X19.  The non-null assertion in the [ready-to-show] listener is safe: in
    every state reached from the constructor the signal of a window never
    makes the listener throw, and it shows that window exactly when the
    window is the class's and its [once] listener has not run yet.  After a
    request has built the popup, the first [ready-to-show] signal of the new
    window shows it, and a second one shows nothing. *)
Theorem ready_to_show_is_safe_and_shows_once :
  (forall events p,
     let w := runEvents events initial in
     let r := emitReadyToShow p w in
     outcome r = Normal tt
     /\ trace r = match windows w !! p with
                  | Some bw =>
                      match onceReadyToShow bw with
                      | [] => []
                      | _ :: _ => [EShow p]
                      end
                  | None => []
                  end)
  /\ (forall h webContentsId spellcheck url w,
        let r0 := generateNewWindowListener (hostUrlUtils h) (hostWindowManager h)
                    (hostElectron h) (hostScheme h) (hostUserAgent h)
                    webContentsId spellcheck url w in
        existsb createsWindow (trace r0) = true ->
        let p := nextWindow w in
        let r := emitReadyToShow p (after r0) in
        outcome r = Normal tt
        /\ trace r = [EShow p]
        /\ outcome (emitReadyToShow p (after r)) = Normal tt
        /\ trace (emitReadyToShow p (after r)) = []).
Proof.
  split.
  - intros events p w r. subst r.
    pose proof (runEvents_popupInvariant events initial initial_popupInvariant) as Hinv.
    fold w in Hinv. unfold popupInvariant in Hinv.
    destruct (popupWindow w) as [q|] eqn:Hq.
    + destruct Hinv as (bw & Hw & Hc & Hr). rewrite Hw.
      destruct (decide (p = q)) as [->|Hne].
      * rewrite (emitReadyToShow_present q bw) by (rewrite ?Hw, ?lookup_singleton_eq; auto).
        rewrite lookup_singleton_eq. cbn [outcome trace]. auto.
      * rewrite emitReadyToShow_absent by (rewrite Hw, lookup_singleton_ne; congruence).
        rewrite lookup_singleton_ne by congruence. cbn. auto.
    + rewrite emitReadyToShow_absent by (rewrite Hinv; apply lookup_empty).
      rewrite Hinv, lookup_empty. cbn. auto.
  - intros h id sc url w r0 Hbuilt p r. subst r p r0.
    destruct (newWindow_frame (hostUrlUtils h) (hostWindowManager h) (hostElectron h)
                (hostScheme h) (hostUserAgent h) id sc url w)
      as (_ & [[_ Hc]|(_ & Hw & _)] & _); [congruence|].
    rewrite Hw.
    rewrite (emitReadyToShow_present (nextWindow w) (popupBrowserWindow sc)
               (withNewPopup sc w));
      [|cbn; apply lookup_insert_eq|reflexivity|cbn; auto].
    cbn [outcome after trace popupBrowserWindow onceReadyToShow].
    split; [reflexivity|]. split; [reflexivity|].
    rewrite (emitReadyToShow_present (nextWindow w)
               (clearReadyToShow (popupBrowserWindow sc))
               (set_windows (alter clearReadyToShow (nextWindow w)) (withNewPopup sc w)));
      [|cbn; rewrite lookup_alter_eq, lookup_insert_eq; reflexivity|reflexivity|cbn; auto].
    cbn. auto.
Qed.

(** X20.  The [closed] signal of the popup empties the reference and leaves
    no window open; and in every state reached from the constructor in which
    the reference is empty, a window-open request that loads a URL builds
    exactly one window and sets the reference to it. *)
Theorem popup_is_built_again_after_close :
  (forall events h p,
     popupWindow (runEvents events initial) = Some p ->
     let w := step (runEvents events initial) (h, Closed p) in
     popupWindow w = None /\ windows w = ∅)
  /\ (forall events h webContentsId spellcheck url,
        let w := runEvents events initial in
        let r := generateNewWindowListener (hostUrlUtils h) (hostWindowManager h)
                   (hostElectron h) (hostScheme h) (hostUserAgent h)
                   webContentsId spellcheck url w in
        popupWindow w = None ->
        existsb loadsURL (trace r) = true ->
        existsb createsWindow (trace r) = true
        /\ popupWindow (after r) = Some (nextWindow w)
        /\ size (windows (after r)) = 1%nat).
Proof.
  split.
  - intros events h p Hp w.
    pose proof (runEvents_popupInvariant events initial initial_popupInvariant) as Hinv.
    destruct (step_popup h (Closed p) _ Hinv) as [Hinv' Hstep].
    destruct (Hstep p Hp) as [[_ Hnone]|[Hne _]]; [|contradiction].
    fold w in Hinv', Hnone. unfold popupInvariant in Hinv'. rewrite Hnone in Hinv'.
    auto.
  - intros events h id sc url w r Hnone Hload. subst r.
    pose proof (runEvents_popupInvariant events initial initial_popupInvariant) as Hinv.
    fold w in Hinv. unfold popupInvariant in Hinv. rewrite Hnone in Hinv.
    destruct (newWindow_frame (hostUrlUtils h) (hostWindowManager h) (hostElectron h)
                (hostScheme h) (hostUserAgent h) id sc url w)
      as (_ & [[Hw _]|(_ & Hw & Hc)] & Hl).
    + destruct (Hl Hload) as (_ & q & ua & Hq & _). rewrite Hw, Hnone in Hq. discriminate.
    + split; [exact Hc|]. rewrite Hw. cbn [popupWindow windows withNewPopup].
      split; [reflexivity|].
      rewrite Hinv, insert_empty. apply map_size_singleton.
Qed.

Lemma step_keeps_records h e w id :
  (is_Some (customLogins w !! id) -> is_Some (customLogins (step w (h, e)) !! id))
  /\ (id ∈ listeners w -> id ∈ listeners (step w (h, e))).
Proof.
  unfold step. cbn [fst snd].
  destruct e as [sender url|sender url|id' sc url|url|id'|id'|q|q]; cbn [handle].
  - rewrite willNavigate_state. auto.
  - destruct (didStartNavigation_frame (hostUrlUtils h) (hostWindowManager h) sender url w)
      as (Hl & _ & _ & _ & _ & Hkeep).
    rewrite Hl. auto.
  - rewrite after_discard.
    destruct (newWindow_frame (hostUrlUtils h) (hostWindowManager h) (hostElectron h)
                (hostScheme h) (hostUserAgent h) id' sc url w)
      as (_ & [[-> _]|(_ & -> & _)] & _); cbn; auto.
  - cbn. auto.
  - rewrite addWebContentsEventListeners_run.
    cbn [after set_listeners set_customLogins customLogins listeners]. split.
    + intros H. destruct (decide (id' = id)) as [->|Hne].
      * rewrite lookup_insert_eq. eauto.
      * rewrite lookup_insert_ne by assumption. exact H.
    + intros H. apply elem_of_union. auto.
  - rewrite removeWebContentsListeners_state. auto.
  - destruct (emitReadyToShow_frame q w) as [-> ->]. auto.
  - destruct (emitClosed_frame q w) as [-> ->]. auto.
Qed.

(** X21.  Nothing is ever forgotten: through any sequence of events, a
    removal of a view's listeners included, no custom-login record and no
    stored detach callback is removed. *)
Theorem records_and_callbacks_are_never_removed events w id :
  (is_Some (customLogins w !! id) -> is_Some (customLogins (runEvents events w) !! id))
  /\ (id ∈ listeners w -> id ∈ listeners (runEvents events w)).
Proof.
  revert w. induction events as [|[h e] events IH]; intros w; cbn; [auto|].
  destruct (IH (step w (h, e))) as [IH1 IH2].
  destruct (step_keeps_records h e w id) as [H1 H2]. auto.
Qed.

(** X22.  Registration puts the flag of the view down, whatever it was, so a
    registration in the middle of a login forgets the login; it leaves the
    flags of the other views, the popup reference and the open windows as
    they are. *)
Theorem registration_resets_the_flag id w :
  let r := addWebContentsEventListeners id w in
  outcome r = Normal tt
  /\ flag (after r) id = Some false
  /\ (forall id', id' <> id -> flag (after r) id' = flag w id')
  /\ id ∈ listeners (after r)
  /\ popupWindow (after r) = popupWindow w
  /\ windows (after r) = windows w.
Proof.
  cbv zeta. rewrite addWebContentsEventListeners_run. unfold flag.
  cbn [outcome after set_listeners set_customLogins customLogins listeners popupWindow windows].
  split; [reflexivity|]. split; [rewrite lookup_insert_eq; reflexivity|].
  split; [intros id' Hne; rewrite lookup_insert_ne by congruence; reflexivity|].
  split; [apply elem_of_union; left; apply elem_of_singleton; reflexivity|auto].
Qed.

(** * The path patterns, spelled out *)

Module PatternFacts.

Import RegexFacts.

Lemma append_assoc (s1 s2 s3 : string) : (s1 ++ s2) ++ s3 = s1 ++ (s2 ++ s3).
Proof.
  induction s1 as [|c s1 IH]; [reflexivity|].
  rewrite !append_cons, IH. reflexivity.
Qed.

Lemma prefix_iff p : forall s, String.prefix p s = true <-> exists rest, s = p ++ rest.
Proof.
  induction p as [|c p IH]; intros s.
  - split; [intros _; exists s; reflexivity|]. intros _. destruct s; reflexivity.
  - destruct s as [|c' s].
    + split; [discriminate|]. intros (rest & H). rewrite append_cons in H. discriminate.
    + cbn [String.prefix]. destruct (Ascii.ascii_dec c c') as [->|Hne].
      * rewrite IH. split; intros (rest & H); exists rest.
        -- rewrite append_cons, H. reflexivity.
        -- rewrite append_cons in H. injection H as ->. reflexivity.
      * split; [discriminate|]. intros (rest & H). rewrite append_cons in H.
        injection H as H _. congruence.
Qed.

Lemma lang_lit p : forall x, lang (Lit p) x <-> x = p.
Proof.
  induction p as [|c p IH]; intros x; cbn [Lit].
  - split; [apply lang_eps_inv|intros ->; constructor].
  - split.
    + intros H. apply lang_seq_inv in H as (s1 & s2 & -> & H1 & H2).
      inversion H1; subst. apply IH in H2 as ->. reflexivity.
    + intros ->. exact (lang_seq (Chr c) (Lit p) (String c "") p (lang_chr c)
                          (proj2 (IH p) eq_refl)).
Qed.

Lemma lang_version x : lang (Range "3" "4") x <-> x = "3" \/ x = "4".
Proof.
  split.
  - intros H. inversion H as [| |lo hi c Hin| | | | |]; subst.
    unfold in_range in Hin. apply andb_true_iff in Hin as [H1 H2].
    apply N.leb_le in H1, H2. cbn in H1, H2.
    assert (Hc : N_of_ascii c = 51%N \/ N_of_ascii c = 52%N) by lia.
    rewrite <- (ascii_N_embedding c).
    destruct Hc as [-> | ->]; [left|right]; reflexivity.
  - intros [-> | ->]; constructor; reflexivity.
Qed.

Lemma bool_eq_of_iff (a b : bool) : (a = true <-> b = true) -> a = b.
Proof.
  destruct a, b; intros [H1 H2]; try reflexivity.
  - symmetry. apply H1. reflexivity.
  - apply H2. reflexivity.
Qed.

Lemma lang_segment x :
  lang (Seq (Lit "/api/v") (Seq (Range "3" "4") (Lit "/public"))) x
  <-> exists v4, x = publicSegment v4.
Proof.
  split.
  - intros H. apply lang_seq_inv in H as (s1 & s2 & -> & H1 & H2).
    apply lang_lit in H1 as ->.
    apply lang_seq_inv in H2 as (s3 & s4 & -> & H3 & H4).
    apply lang_lit in H4 as ->. apply lang_version in H3 as [-> | ->];
      [exists false|exists true]; reflexivity.
  - intros ([|] & ->).
    + exact (lang_seq _ _ "/api/v" "4/public" (proj2 (lang_lit "/api/v" _) eq_refl)
               (lang_seq _ _ "4" "/public" (proj2 (lang_version "4") (or_intror eq_refl))
                  (proj2 (lang_lit "/public" _) eq_refl))).
    + exact (lang_seq _ _ "/api/v" "3/public" (proj2 (lang_lit "/api/v" _) eq_refl)
               (lang_seq _ _ "3" "/public" (proj2 (lang_version "3") (or_introl eq_refl))
                  (proj2 (lang_lit "/public" _) eq_refl))).
Qed.

Lemma lang_segments x :
  lang (Star (Seq (Lit "/api/v") (Seq (Range "3" "4") (Lit "/public")))) x
  <-> exists vs, x = publicSegments vs.
Proof.
  split.
  - intros H.
    remember (Star (Seq (Lit "/api/v") (Seq (Range "3" "4") (Lit "/public")))) as r eqn:Er.
    induction H; try discriminate.
    + exists []. reflexivity.
    + injection Er as ->. destruct (IHlang2 eq_refl) as (vs & ->).
      apply lang_segment in H as (v & ->). exists (v :: vs). reflexivity.
  - intros (vs & ->). induction vs as [|v vs IH]; [constructor|].
    cbn [publicSegments]. apply lang_star_cons; [|exact IH].
    apply lang_segment. eauto.
Qed.

End PatternFacts.

(** X24.  The image-proxy test is [startsWith "/api/v3/image"] or
    [startsWith "/api/v4/image"], and the help test is
    [startsWith "/help/"]. *)
Theorem image_proxy_and_help_paths path :
  matches_prefix imageProxyPattern path
  = String.prefix "/api/v3/image" path || String.prefix "/api/v4/image" path
  /\ matches_prefix helpPattern path = String.prefix "/help/" path.
Proof.
  split; [|apply RegexFacts.matches_prefix_lit].
  apply PatternFacts.bool_eq_of_iff.
  rewrite RegexFacts.matches_prefix_spec, orb_true_iff, !PatternFacts.prefix_iff.
  unfold imageProxyPattern. split.
  - intros (p & rest & -> & H).
    apply RegexFacts.lang_seq_inv in H as (s1 & s2 & -> & H1 & H2).
    apply PatternFacts.lang_lit in H1 as ->.
    apply RegexFacts.lang_seq_inv in H2 as (s3 & s4 & -> & H3 & H4).
    apply PatternFacts.lang_lit in H4 as ->.
    apply PatternFacts.lang_version in H3 as [-> | ->]; [left|right]; exists rest;
      reflexivity.
  - intros [(rest & ->)|(rest & ->)].
    + exists "/api/v3/image", rest. split; [reflexivity|].
      exact (lang_seq _ _ "/api/v" "3/image"
               (proj2 (PatternFacts.lang_lit "/api/v" _) eq_refl)
               (lang_seq _ _ "3" "/image"
                  (proj2 (PatternFacts.lang_version "3") (or_introl eq_refl))
                  (proj2 (PatternFacts.lang_lit "/image" _) eq_refl))).
    + exists "/api/v4/image", rest. split; [reflexivity|].
      exact (lang_seq _ _ "/api/v" "4/image"
               (proj2 (PatternFacts.lang_lit "/api/v" _) eq_refl)
               (lang_seq _ _ "4" "/image"
                  (proj2 (PatternFacts.lang_version "4") (or_intror eq_refl))
                  (proj2 (PatternFacts.lang_lit "/image" _) eq_refl))).
Qed.

(** X25.  The public-file test accepts exactly the paths made of any number
    of [/api/v3/public] or [/api/v4/public] segments, then [/files/], then
    anything. *)
Theorem public_file_paths path :
  matches_prefix publicFilesPattern path = true
  <-> exists vs rest, path = publicSegments vs ++ "/files/" ++ rest.
Proof.
  rewrite RegexFacts.matches_prefix_spec. unfold publicFilesPattern. split.
  - intros (p & rest & -> & H).
    apply RegexFacts.lang_seq_inv in H as (s1 & s2 & -> & H1 & H2).
    apply PatternFacts.lang_segments in H1 as (vs & ->).
    apply PatternFacts.lang_lit in H2 as ->.
    exists vs, rest. apply PatternFacts.append_assoc.
  - intros (vs & rest & ->).
    exists (publicSegments vs ++ "/files/"), rest. split.
    + symmetry. apply PatternFacts.append_assoc.
    + apply lang_seq.
      * apply PatternFacts.lang_segments. eauto.
      * apply PatternFacts.lang_lit. reflexivity.
Qed.

(** * The further properties on the sample deployment *)

(** X1, on a foreign site: cancelled, no flush. *)
Lemma willNavigate_decision_witness :
  let r := generateWillNavigate Sample.utils Sample.manager (Sample.showing "") 1
             "https://evil.example.org/" Sample.registered in
  outcome r = Normal tt
  /\ after r = Sample.registered
  /\ existsb preventsDefault (trace r) = true
  /\ existsb flushesCookies (trace r) = false.
Proof.
  exact (willNavigate_decision Sample.utils Sample.manager (Sample.showing "") 1
           "https://evil.example.org/" Sample.registered
           (mkURL "https:" "evil.example.org" "/") eq_refl).
Defined.

(** X2, on a mail link clicked in the middle of a login. *)
Lemma willNavigate_mailto_passes_witness :
  let r := generateWillNavigate Sample.utils Sample.manager (Sample.showing "") 1
             "mailto:someone@example.org" Sample.loggingIn in
  outcome r = Normal tt
  /\ trace r = [ELog Debug "webContentEvents.will-navigate"].
Proof.
  exact (willNavigate_mailto_passes Sample.utils Sample.manager (Sample.showing "") 1
           "mailto:someone@example.org" Sample.loggingIn
           (mkURL "mailto:" "" "someone@example.org") eq_refl eq_refl).
Defined.

(** X4, on a view the window manager resolves no server for. *)
Lemma willNavigate_without_server_origin_witness :
  existsb preventsDefault
    (trace (generateWillNavigate Sample.utils Sample.detached (Sample.showing "") 1
              Scenario.channelURL Sample.registered)) = true.
Proof.
  exact (willNavigate_without_server_origin Sample.utils Sample.detached
           (Sample.showing "") 1 Scenario.channelURL Sample.registered
           (mkURL "https:" "team.example.com" "/core/channels/town-square")
           eq_refl eq_refl).
Defined.

(** X5, on the contents of the open popup and a destination that does not
    parse. *)
Lemma willNavigate_inside_popup_witness :
  generateWillNavigate Sample.utils Scenario.resolvesPopup Scenario.popupContents 7
    "not a url" Sample.withPopup
  = mkRun (Normal tt) Sample.withPopup [ELog Debug "webContentEvents.will-navigate"].
Proof.
  exact (willNavigate_inside_popup Sample.utils Scenario.resolvesPopup
           Scenario.popupContents 7 "not a url" Sample.withPopup Sample.server 1
           eq_refl eq_refl eq_refl).
Defined.

(** X6, on the pop-out of the active call. *)
Lemma willNavigate_calls_pop_out_witness :
  existsb preventsDefault
    (trace (generateWillNavigate Sample.utils Scenario.inCall (Sample.showing "") 1
              "https://team.example.com/plugins/com.mattermost.calls/expanded/call42"
              Sample.registered)) = false.
Proof.
  apply (proj2 (willNavigate_calls_pop_out Sample.utils Scenario.inCall
                  (Sample.showing "") 1
                  "https://team.example.com/plugins/com.mattermost.calls/expanded/call42"
                  Sample.registered
                  (mkURL "https:" "team.example.com"
                     "/plugins/com.mattermost.calls/expanded/call42")
                  eq_refl eq_refl eq_refl)).
  exists Sample.server, "call42". repeat split; try reflexivity. discriminate.
Defined.

(** X9, on a login through the identity provider and back to a channel. *)
Lemma didStartNavigation_login_round_trip_witness :
  flag (after (generateDidStartNavigation Sample.utils Sample.manager 1
                 Scenario.loginURL Sample.registered)) 1 = Some true
  /\ after (generateDidStartNavigation Sample.utils Sample.manager 1 Scenario.channelURL
              (after (generateDidStartNavigation Sample.utils Sample.manager 1
                        Scenario.loginURL Sample.registered)))
     = Sample.registered.
Proof.
  exact (didStartNavigation_login_round_trip Sample.utils Sample.manager 1
           Scenario.loginURL Scenario.channelURL Sample.registered Sample.server
           eq_refl eq_refl eq_refl eq_refl eq_refl eq_refl eq_refl).
Defined.

(** X11, on a foreign site visited in the middle of a login. *)
Lemma login_in_progress_lets_every_navigation_through_witness :
  let w' := after (generateDidStartNavigation Sample.utils Sample.manager 1
                     Scenario.loginURL Sample.registered) in
  let r := generateWillNavigate Sample.utils Sample.manager (Sample.showing "") 1
             "https://evil.example.org/" w' in
  outcome r = Normal tt /\ existsb preventsDefault (trace r) = false.
Proof.
  apply (login_in_progress_lets_every_navigation_through Sample.utils Sample.manager
           (Sample.showing "") 1 Scenario.loginURL "https://evil.example.org/"
           Sample.registered Sample.server (mkURL "https:" "evil.example.org" "/"));
    try reflexivity.
  exists {| inProgress := false |}. reflexivity.
Defined.

(** X16, on the first plugin page a view asks for. *)
Lemma newWindow_builds_popup_on_first_use_witness :
  let r := generateNewWindowListener Sample.utils Sample.manager (Sample.showing "")
             Sample.scheme Sample.userAgent 1 None Sample.pluginURL Sample.registered in
  popupWindow (after r) = Some 1
  /\ windows (after r) !! 1
     = Some {| spellcheckPref := true; denyAllOpenHandler := true;
               onceReadyToShow := [ShowPopup]; onceClosed := [ClearPopup] |}
  /\ (forall q, q <> 1 -> windows (after r) !! q = windows Sample.registered !! q)
  /\ customLogins (after r) = customLogins Sample.registered
  /\ listeners (after r) = listeners Sample.registered
  /\ exists ua,
       trace r = [ELog Debug "webContentEvents.new-window";
                  ENewBrowserWindow 1 true;
                  ELoadURL 1 Sample.pluginURL ua;
                  EContextMenuReload 1].
Proof.
  exact (newWindow_builds_popup_on_first_use Sample.utils Sample.manager
           (Sample.showing "") Sample.scheme Sample.userAgent 1 None Sample.pluginURL
           (mkURL "https:" "plugins.example.com" "/oauth/start")
           Sample.server Sample.registered
           (conj eq_refl (conj eq_refl (conj eq_refl
              (conj eq_refl (conj eq_refl eq_refl)))))
           eq_refl eq_refl eq_refl eq_refl).
Defined.

(** X17, on a managed resource asked for while the popup shows the plugin
    page. *)
Lemma newWindow_navigates_the_open_popup_witness :
  let r := generateNewWindowListener Sample.utils Sample.manager
             (Sample.showing Sample.pluginURL) Sample.scheme Sample.userAgent 1 None
             "https://team.example.com/trusted/report" Sample.withPopup in
  outcome r = Normal Deny
  /\ after r = Sample.withPopup
  /\ exists ua,
       trace r = [ELog Debug "webContentEvents.new-window";
                  ELoadURL 1 "https://team.example.com/trusted/report" ua;
                  EContextMenuReload 1].
Proof.
  apply (newWindow_navigates_the_open_popup Sample.utils Sample.manager
           (Sample.showing Sample.pluginURL) Sample.scheme Sample.userAgent 1 None
           "https://team.example.com/trusted/report"
           (mkURL "https:" "team.example.com" "/trusted/report")
           Sample.server Sample.withPopup 1
           (conj eq_refl (conj eq_refl (conj eq_refl
              (conj eq_refl (conj eq_refl eq_refl)))))
           eq_refl eq_refl eq_refl eq_refl).
  discriminate.
Defined.

(** X20, on a popup that is opened, closed, and asked for again after the
    view has navigated. *)
Lemma popup_is_built_again_after_close_witness :
  let opened := [(Sample.host "", Register 1);
                 (Sample.host "", WindowOpen 1 None Sample.pluginURL)] in
  let closed := (opened ++ [(Sample.host Sample.pluginURL, Closed 1);
                            (Sample.host "", WillNavigate 1 Scenario.channelURL)])%list in
  let w := runEvents closed initial in
  let r := generateNewWindowListener Sample.utils Sample.manager (Sample.showing "")
             Sample.scheme Sample.userAgent 1 None Sample.pluginURL w in
  (popupWindow (step (runEvents opened initial) (Sample.host Sample.pluginURL, Closed 1))
   = None
   /\ windows (step (runEvents opened initial) (Sample.host Sample.pluginURL, Closed 1))
      = ∅)
  /\ existsb createsWindow (trace r) = true
  /\ popupWindow (after r) = Some (nextWindow w)
  /\ size (windows (after r)) = 1%nat.
Proof.
  intros opened closed w r.
  destruct popup_is_built_again_after_close as [Hclose Hbuild].
  split.
  - exact (Hclose opened (Sample.host Sample.pluginURL) 1 eq_refl).
  - exact (Hbuild closed (Sample.host "") 1 None Sample.pluginURL eq_refl eq_refl).
Defined.

(** X19, on the popup a view has just had built. *)
Lemma ready_to_show_is_safe_and_shows_once_witness :
  let r0 := generateNewWindowListener Sample.utils Sample.manager (Sample.showing "")
              Sample.scheme Sample.userAgent 1 None Sample.pluginURL Sample.registered in
  let r := emitReadyToShow 1 (after r0) in
  outcome r = Normal tt
  /\ trace r = [EShow 1]
  /\ outcome (emitReadyToShow 1 (after r)) = Normal tt
  /\ trace (emitReadyToShow 1 (after r)) = [].
Proof.
  exact (proj2 ready_to_show_is_safe_and_shows_once (Sample.host "") 1 None
           Sample.pluginURL Sample.registered eq_refl).
Defined.
